(** * Mezzanine configurator: perimeter occupancy, railing auto-fit,
      perimeter walker and floor area.

    Shallow embedding of
      - [src/components/ConfigurationPanel.tsx] (perimeter helpers,
        [autoAdjustRailingsForPerimeter], add / remove / update handlers and
        the quantity buttons of the accessory list),
      - [src/components/MezzanineViewer.tsx] ([MezzanineModel] and the
        [Railings] perimeter walker),
      - [src/utils/pricing.ts] ([calculateSquareMeters]).

    JavaScript numbers are modelled as exact rationals [Q]; quantities, which
    the panel only ever writes as whole numbers, are [Z].  [Math.floor] is
    [Qfloor], [Math.max]/[Math.min] are [Qmax]/[Qmin] (or [Z.max]).

    Exact arithmetic is an idealisation: the panel computes in IEEE 754
    doubles, and where it floors or compares a sum the last bit can decide.
    The modules [JS], [Panel64] and [Resolver64] therefore embed the panel a
    second time over binary64 ([PrimFloat]), and what is stated of the
    resolver's walk, of its idempotence and of the perimeter invariant is
    stated and proved there. *)

From Stdlib Require Import QArith Qround Qminmax Lqa Lia ZArith String Floats.
From stdpp Require Import base list strings.

Open Scope Q_scope.

Set Warnings "-inexact-float".

(* ================================================================== *)
(** ** Data model ([src/types/index.ts])                               *)
(* ================================================================== *)

Inductive AccessoryType := stairs | railings | palletGate.

Inductive PalletGateWidth := W2000mm | W2500mm | W3000mm.

Inductive LoadCapacity := Load250 | Load350 | Load500.

#[global] Instance AccessoryType_eq_dec : EqDecision AccessoryType.
Proof. solve_decision. Defined.

#[global] Instance PalletGateWidth_eq_dec : EqDecision PalletGateWidth.
Proof. solve_decision. Defined.

(** [interface Accessory]: the three kind-specific fields are optional. *)
Record Accessory := mkAccessory {
  acc_id : string;
  acc_type : AccessoryType;
  acc_quantity : Z;
  acc_stairType : option string;
  acc_length : option Q;          (* in meters *)
  acc_width : option PalletGateWidth
}.

(** [interface MezzanineConfig]: dimensions in millimeters. *)
Record MezzanineConfig := mkConfig {
  cfg_length : Q;
  cfg_width : Q;
  cfg_height : Q;
  cfg_loadCapacity : LoadCapacity;
  cfg_accessories : list Accessory
}.

(** [{ ...config, accessories }] *)
Definition withAccessories (config : MezzanineConfig) (accs : list Accessory)
  : MezzanineConfig :=
  {| cfg_length := cfg_length config;
     cfg_width := cfg_width config;
     cfg_height := cfg_height config;
     cfg_loadCapacity := cfg_loadCapacity config;
     cfg_accessories := accs |}.

(* ================================================================== *)
(** ** JavaScript helpers                                              *)
(* ================================================================== *)

(** [s.includes(sub)] *)
Fixpoint includes (s sub : string) : bool :=
  String.prefix sub s ||
  match s with
  | EmptyString => false
  | String _ rest => includes rest sub
  end.

(** [stairType?.includes(sub)], falsy when the field is absent. *)
Definition optIncludes (st : option string) (sub : string) : bool :=
  match st with
  | Some s => includes s sub
  | None => false
  end.

(** [x || d] on an optional number: [undefined] and [0] are falsy. *)
Definition orElse (x : option Q) (d : Q) : Q :=
  match x with
  | Some v => if Qeq_dec v 0 then d else v
  | None => d
  end.

(** [parseFloat(w)] on the three literal widths. *)
Definition parseFloat (w : PalletGateWidth) : Q :=
  match w with
  | W2000mm => 2000
  | W2500mm => 2500
  | W3000mm => 3000
  end.

(** [gate.width || '2000mm'] *)
Definition widthOrDefault (w : option PalletGateWidth) : PalletGateWidth :=
  match w with
  | Some v => v
  | None => W2000mm
  end.

Definition isType (t : AccessoryType) (a : Accessory) : Prop := acc_type a = t.

#[global] Instance isType_dec t a : Decision (isType t a).
Proof. unfold isType. apply _. Defined.

(* ================================================================== *)
(** ** Occupancy calculator ([ConfigurationPanel.tsx], lines 8-69)     *)
(* ================================================================== *)

Module Panel.

Definition REPOS_LENGTH : Q := 3.0.
Definition REPOS_DEPTH : Q := 1.4.

(** [a.type === 'stairs' && a.stairType?.includes('Vinkel')] *)
Definition isVinkelStair (a : Accessory) : bool :=
  bool_decide (acc_type a = stairs) && optIncludes (acc_stairType a) "Vinkel".

Definition calculatePerimeter (length width : Q) (accessories : list Accessory) : Q :=
  let perimeter := 2 * ((length / 1000) + (width / 1000)) in
  let hasVinkelStair := existsb isVinkelStair accessories in
  if hasVinkelStair
  then perimeter + (2 * REPOS_DEPTH + REPOS_LENGTH)
  else perimeter.

(** One step of the [forEach] in [calculateStairsSpace]. *)
Definition stairSpaceStep (space : Q) (stair : Accessory) : Q :=
  let space := space + inject_Z (acc_quantity stair) * 1.0 in
  if optIncludes (acc_stairType stair) "Vinkel"
  then space + REPOS_DEPTH
  else space.

Definition calculateStairsSpace (accessories : list Accessory) : Q :=
  fold_left stairSpaceStep (filter (isType stairs) accessories) 0.

Definition calculatePalletGatesSpace (accessories : list Accessory) : Q :=
  fold_left
    (fun sum gate =>
       let gateWidth := parseFloat (widthOrDefault (acc_width gate)) / 1000 in
       sum + inject_Z (acc_quantity gate) * gateWidth)
    (filter (isType palletGate) accessories) 0.

(** [railing.quantity * (railing.length || 0)] *)
Definition consumedLength (railing : Accessory) : Q :=
  inject_Z (acc_quantity railing) * orElse (acc_length railing) 0.

Definition calculateTotalRailingLength (accessories : list Accessory) : Q :=
  fold_left (fun sum railing => sum + consumedLength railing)
            (filter (isType railings) accessories) 0.

Definition calculateAvailablePerimeter (config : MezzanineConfig) : Q :=
  let perimeter :=
    calculatePerimeter (cfg_length config) (cfg_width config) (cfg_accessories config) in
  let stairsSpace := calculateStairsSpace (cfg_accessories config) in
  let palletGatesSpace := calculatePalletGatesSpace (cfg_accessories config) in
  Qmax 0 (perimeter - stairsSpace - palletGatesSpace).

(* ================================================================== *)
(** ** Auto-fit resolver ([ConfigurationPanel.tsx], lines 71-133)      *)
(* ================================================================== *)

(** The [else] branch of the loop body (lines 102-126): the replacement
    written to [adjustedAccessories[railingIndex]]. *)
Definition reducedRailing (railing : Accessory) (remainingToReduce : Q) : Accessory :=
  let currentLength := consumedLength railing in
  let length := orElse (acc_length railing) 10 in
  let quantity := acc_quantity railing in
  let newTotalLength := currentLength - remainingToReduce in
  let newLength := newTotalLength / inject_Z quantity in
  if Qlt_le_dec newLength 1 then
    let newQuantity := Z.max 1 (Qfloor (newTotalLength / length)) in
    let finalLength := Qfloor (newTotalLength / inject_Z newQuantity) in
    {| acc_id := acc_id railing;
       acc_type := acc_type railing;
       acc_quantity := newQuantity;
       acc_stairType := acc_stairType railing;
       acc_length := Some (inject_Z (Z.max 1 finalLength));
       acc_width := acc_width railing |}
  else
    {| acc_id := acc_id railing;
       acc_type := acc_type railing;
       acc_quantity := acc_quantity railing;
       acc_stairType := acc_stairType railing;
       acc_length := Some (inject_Z (Qfloor newLength));
       acc_width := acc_width railing |}.

(** The [for] loop of lines 89-130.  [pending] lists [railings[i]] for
    [i = railings.length - 1] down to [0]; the loop also stops as soon as
    [remainingToReduce > 0] fails.  [findIndex] is [list_find], [splice(i, 1)]
    is [delete i] and the indexed assignment is [<[i := _]>]. *)
Fixpoint reduceLoop (pending : list Accessory) (adjustedAccessories : list Accessory)
    (remainingToReduce : Q) : list Accessory :=
  match pending with
  | [] => adjustedAccessories
  | railing :: pending' =>
      if Qlt_le_dec 0 remainingToReduce then
        match list_find (fun a => acc_id a = acc_id railing) adjustedAccessories with
        | None => reduceLoop pending' adjustedAccessories remainingToReduce
        | Some (railingIndex, _) =>
            let currentLength := consumedLength railing in
            if Qlt_le_dec remainingToReduce currentLength then
              reduceLoop pending'
                (<[railingIndex := reducedRailing railing remainingToReduce]>
                   adjustedAccessories)
                0
            else
              reduceLoop pending'
                (delete railingIndex adjustedAccessories)
                (remainingToReduce - currentLength)
        end
      else adjustedAccessories
  end.

Definition autoAdjustRailingsForPerimeter (config : MezzanineConfig) : list Accessory :=
  let availablePerimeter := calculateAvailablePerimeter config in
  let currentRailingLength := calculateTotalRailingLength (cfg_accessories config) in
  if Qlt_le_dec availablePerimeter currentRailingLength then
    let excessLength := currentRailingLength - availablePerimeter in
    let railingEntries := filter (isType railings) (cfg_accessories config) in
    reduceLoop (reverse railingEntries) (cfg_accessories config) excessLength
  else cfg_accessories config.

(* ================================================================== *)
(** ** Mutations ([ConfigurationPanel.tsx], lines 144-264)             *)
(* ================================================================== *)

(** What a handler does besides returning: the [alert] it raises, if any,
    and the configuration passed to [onConfigChange], if it is called. *)
Inductive Alert :=
  | CannotAddRailings (availablePerimeter currentUsage : Q)
  | OnlyOneVinkelAllowed
  | CannotUpdateRailings (availablePerimeter requestedTotal : Q)
  | RailingsReduced (reduced : Q).

Record Effect := mkEffect {
  alerted : option Alert;
  changed : option MezzanineConfig
}.

(** The configuration the application holds after the handler has run. *)
Definition configAfter (config : MezzanineConfig) (e : Effect) : MezzanineConfig :=
  match changed e with
  | Some config' => config'
  | None => config
  end.

Definition typeName (t : AccessoryType) : string :=
  match t with
  | stairs => "stairs"
  | railings => "railings"
  | palletGate => "palletGate"
  end.

(** The object literal of lines 157-164; [now] is the text of [Date.now()]. *)
Definition newAccessory (type : AccessoryType) (now : string) : Accessory :=
  {| acc_id := typeName type ++ "-" ++ now;
     acc_type := type;
     acc_quantity := 1;
     acc_stairType := if decide (type = stairs) then Some "Straight 1m"%string else None;
     acc_length := if decide (type = railings) then Some 10 else None;
     acc_width := if decide (type = palletGate) then Some W2000mm else None |}.

Definition addAccessory (config : MezzanineConfig) (type : AccessoryType) (now : string)
  : Effect :=
  let availablePerimeter := calculateAvailablePerimeter config in
  let currentRailingLength := calculateTotalRailingLength (cfg_accessories config) in
  let defaultLength := 10 in
  if decide (type = railings) then
    if Qlt_le_dec availablePerimeter (currentRailingLength + defaultLength) then
      mkEffect (Some (CannotAddRailings availablePerimeter currentRailingLength)) None
    else
      mkEffect None
        (Some (withAccessories config (cfg_accessories config ++ [newAccessory type now])))
  else
    let newAccessories := cfg_accessories config ++ [newAccessory type now] in
    let adjustedAccessories :=
      autoAdjustRailingsForPerimeter (withAccessories config newAccessories) in
    mkEffect None (Some (withAccessories config adjustedAccessories)).

Definition removeAccessory (config : MezzanineConfig) (id : string) : Effect :=
  mkEffect None
    (Some (withAccessories config
             (filter (fun a => acc_id a <> id) (cfg_accessories config)))).

(** [Partial<Accessory>] *)
Record AccessoryUpdates := mkUpdates {
  upd_id : option string;
  upd_type : option AccessoryType;
  upd_quantity : option Z;
  upd_stairType : option string;
  upd_length : option Q;
  upd_width : option PalletGateWidth
}.

(** [{ ...a, ...updates }] *)
Definition applyUpdates (a : Accessory) (updates : AccessoryUpdates) : Accessory :=
  {| acc_id := default (acc_id a) (upd_id updates);
     acc_type := default (acc_type a) (upd_type updates);
     acc_quantity := default (acc_quantity a) (upd_quantity updates);
     acc_stairType :=
       match upd_stairType updates with Some s => Some s | None => acc_stairType a end;
     acc_length :=
       match upd_length updates with Some l => Some l | None => acc_length a end;
     acc_width :=
       match upd_width updates with Some w => Some w | None => acc_width a end |}.

(** [updates.stairType] used as a condition: present and not the empty string. *)
Definition truthyStairType (st : option string) : option string :=
  match st with
  | Some s => if decide (s = ""%string) then None else Some s
  | None => None
  end.

(** Lines 216-218: the other railings' total. *)
Definition otherRailingsLength (accessories : list Accessory) (id : string) : Q :=
  fold_left (fun sum r => sum + consumedLength r)
    (filter (fun a => acc_type a = railings /\ acc_id a <> id) accessories) 0.

(** Lines 198-209: does the Vinkel validation reject the update? *)
Definition vinkelRejected (config : MezzanineConfig) (accessory : Accessory)
    (id : string) (updates : AccessoryUpdates) : bool :=
  match truthyStairType (upd_stairType updates) with
  | Some st =>
      bool_decide (acc_type accessory = stairs) &&
      (let isVinkel := includes st "Vinkel" in
       let currentVinkelStairs :=
         filter (fun a => isVinkelStair a = true /\ acc_id a <> id)
                (cfg_accessories config) in
       isVinkel && bool_decide (0 < List.length currentVinkelStairs)%nat)
  | None => false
  end.

(** Lines 220-225: the total the railing edit asks for. *)
Definition requestedRailingTotal (config : MezzanineConfig) (accessory : Accessory)
    (id : string) (updates : AccessoryUpdates) : Q :=
  let newQuantity := default (acc_quantity accessory) (upd_quantity updates) in
  let newLength :=
    match upd_length updates with
    | Some l => l
    | None => orElse (acc_length accessory) 0
    end in
  let newTotalForThis := inject_Z newQuantity * newLength in
  otherRailingsLength (cfg_accessories config) id + newTotalForThis.

Definition updateAccessory (config : MezzanineConfig) (id : string)
    (updates : AccessoryUpdates) : Effect :=
  match list_find (fun a => acc_id a = id) (cfg_accessories config) with
  | None => mkEffect None None
  | Some (_, accessory) =>
      if vinkelRejected config accessory id updates then
        mkEffect (Some OnlyOneVinkelAllowed) None
      else
        let availablePerimeter := calculateAvailablePerimeter config in
        let totalRailingLength := requestedRailingTotal config accessory id updates in
        if bool_decide (acc_type accessory = railings) &&
           (if Qlt_le_dec availablePerimeter totalRailingLength then true else false)
        then
          mkEffect (Some (CannotUpdateRailings availablePerimeter totalRailingLength)) None
        else
          let newAccessories :=
            fmap (fun a => if decide (acc_id a = id) then applyUpdates a updates else a)
                 (cfg_accessories config) in
          if (bool_decide (acc_type accessory = stairs) ||
              bool_decide (acc_type accessory = palletGate)) &&
             bool_decide (is_Some (upd_quantity updates))
          then
            let adjustedAccessories :=
              autoAdjustRailingsForPerimeter (withAccessories config newAccessories) in
            let originalRailingLength := calculateTotalRailingLength newAccessories in
            let adjustedRailingLength := calculateTotalRailingLength adjustedAccessories in
            mkEffect
              (if Qeq_dec originalRailingLength adjustedRailingLength then None
               else Some (RailingsReduced (originalRailingLength - adjustedRailingLength)))
              (Some (withAccessories config adjustedAccessories))
          else
            mkEffect None (Some (withAccessories config newAccessories))
  end.

(** *** The quantity buttons of the accessory list (lines 431-453, 474-494,
    511-531).  For a stair they carry
    [disabled={accessory.stairType?.includes('Vinkel')}]; a disabled button
    does not run its [onClick]. *)
Definition quantityButtonsDisabled (accessory : Accessory) : bool :=
  match acc_type accessory with
  | stairs => optIncludes (acc_stairType accessory) "Vinkel"
  | _ => false
  end.

Definition quantityUpdate (q : Z) : AccessoryUpdates :=
  mkUpdates None None (Some q) None None None.

Definition clickMinus (config : MezzanineConfig) (accessory : Accessory) : Effect :=
  if quantityButtonsDisabled accessory then mkEffect None None
  else updateAccessory config (acc_id accessory)
         (quantityUpdate (Z.max 1 (acc_quantity accessory - 1))).

Definition clickPlus (config : MezzanineConfig) (accessory : Accessory) : Effect :=
  if quantityButtonsDisabled accessory then mkEffect None None
  else updateAccessory config (acc_id accessory)
         (quantityUpdate (acc_quantity accessory + 1)).

End Panel.

(* ================================================================== *)
(** ** Floor area ([src/utils/pricing.ts], lines 21-43)                *)
(* ================================================================== *)

Module Pricing.

Definition REPOS_LENGTH : Q := 3.0.
Definition REPOS_DEPTH : Q := 1.4.
Definition REPOS_AREA : Q := REPOS_LENGTH * REPOS_DEPTH.

(** [a.type === 'stairs' && a.stairType?.includes('Corner stairs')] *)
Definition isCornerStair (a : Accessory) : bool :=
  bool_decide (acc_type a = stairs) && optIncludes (acc_stairType a) "Corner stairs".

Definition calculateSquareMeters (length width : Q) (accessories : list Accessory) : Q :=
  let baseArea := (length * width) / 1000000 in
  let hasCornerStair := existsb isCornerStair accessories in
  if hasCornerStair then baseArea + REPOS_AREA else baseArea.

(** Pricing constants (lines 3-28). *)
Definition BASE_PRICE : Q := 50000.
Definition PRICE_PER_SQUARE_METER_BASE : Q := 2000.
Definition DIMENSION_MULTIPLIER : Q := 0.001.
Definition STAIRS_BASE_PRICE : Q := 15000.
Definition CORNER_STAIRS_BASE_PRICE : Q := 25000.
Definition RAILING_PRICE_PER_METER : Q := 800.
Definition PALLET_GATE_BASE_PRICE : Q := 12000.
Definition LEASING_3_YEARS_FACTOR : Q := 0.029.
Definition LEASING_5_YEARS_FACTOR : Q := 0.035.

Definition calculateDimensionPrice (length width height : Q) : Q :=
  let volume := (length * width * height) / 1000000000 in
  volume * PRICE_PER_SQUARE_METER_BASE * DIMENSION_MULTIPLIER * 100.

(** [LOAD_MULTIPLIERS[loadCapacity] || 1.0]: the table has an entry, none of
    them 0, for each of the three load classes. *)
Definition getLoadMultiplier (loadCapacity : LoadCapacity) : Q :=
  match loadCapacity with
  | Load250 => 1.0
  | Load350 => 1.2
  | Load500 => 1.5
  end.

(** One turn of the [for] loop of [calculateAccessoriesPrice]; a railing is
    priced only [if (accessory.length)], that is when its length is set and
    not 0. *)
Definition accessoryPriceStep (total : Q) (accessory : Accessory) : Q :=
  match acc_type accessory with
  | stairs =>
      let isCornerStair := optIncludes (acc_stairType accessory) "Corner stairs" in
      let stairPrice :=
        if isCornerStair then CORNER_STAIRS_BASE_PRICE else STAIRS_BASE_PRICE in
      total + stairPrice * inject_Z (acc_quantity accessory)
  | railings =>
      match acc_length accessory with
      | Some l =>
          if Qeq_dec l 0 then total
          else total + RAILING_PRICE_PER_METER * l * inject_Z (acc_quantity accessory)
      | None => total
      end
  | palletGate => total + PALLET_GATE_BASE_PRICE * inject_Z (acc_quantity accessory)
  end.

Definition calculateAccessoriesPrice (accessories : list Accessory) : Q :=
  fold_left accessoryPriceStep accessories 0.

(** [interface Pricing] *)
Record PricingResult := mkPricing {
  basePrice : Q;
  dimensionPrice : Q;
  loadPrice : Q;
  accessoriesPrice : Q;
  totalPrice : Q;
  pricePerSquareMeter : Q;
  squareMeters : Q;
  leasing3Years : Q;
  leasing5Years : Q
}.

Definition calculatePricing (config : MezzanineConfig) : PricingResult :=
  let squareMeters :=
    calculateSquareMeters (cfg_length config) (cfg_width config) (cfg_accessories config) in
  let basePrice := BASE_PRICE in
  let dimensionPrice :=
    calculateDimensionPrice (cfg_length config) (cfg_width config) (cfg_height config) in
  let loadMultiplier := getLoadMultiplier (cfg_loadCapacity config) in
  let loadPrice := (basePrice + dimensionPrice) * (loadMultiplier - 1) in
  let accessoriesPrice := calculateAccessoriesPrice (cfg_accessories config) in
  let totalPrice := (basePrice + dimensionPrice) * loadMultiplier + accessoriesPrice in
  let pricePerSquareMeter :=
    if Qlt_le_dec 0 squareMeters then totalPrice / squareMeters else 0 in
  let leasing3Years := (totalPrice * LEASING_3_YEARS_FACTOR) / 36 in
  let leasing5Years := (totalPrice * LEASING_5_YEARS_FACTOR) / 60 in
  {| basePrice := basePrice;
     dimensionPrice := dimensionPrice;
     loadPrice := loadPrice;
     accessoriesPrice := accessoriesPrice;
     totalPrice := totalPrice;
     pricePerSquareMeter := pricePerSquareMeter;
     squareMeters := squareMeters;
     leasing3Years := leasing3Years;
     leasing5Years := leasing5Years |}.

End Pricing.

(* ================================================================== *)
(** ** Perimeter walker ([MezzanineViewer.tsx], [Railings])            *)
(* ================================================================== *)

Module Viewer.

Inductive EdgeName := front | right | back | left | repos_left | repos_front.

#[global] Instance EdgeName_eq_dec : EqDecision EdgeName.
Proof. solve_decision. Defined.

Definition Point : Type := Q * Q * Q.
Definition pX (p : Point) : Q := p.1.1.
Definition pY (p : Point) : Q := p.1.2.
Definition pZ (p : Point) : Q := p.2.

Record Segment := mkSegment {
  seg_start : Point;
  seg_end : Point;
  seg_edge : EdgeName;
  edgeLength : Q;
  edgeStartDist : Q
}.

(** One rendered [<group>]: the edge it lies on, its position and the length
    of its rails ([segmentLen]). *)
Record Placement := mkPlacement {
  pl_edge : EdgeName;
  pl_position : Point;
  pl_segmentLen : Q
}.

Definition railingHeight : Q := 1.1.
Definition stairWidth : Q := 1.0.
Definition reposLength : Q := 3.0.
Definition reposDepth : Q := 1.4.
Definition maxIterations : nat := 1000.

(** [getStairsXRanges]: one range of width [stairWidth] every 2 m, the group
    centred on 0. *)
Definition getStairsXRanges (quantity : Z) : list (Q * Q) :=
  map (fun qIdx : nat =>
         let offsetX :=
           (inject_Z (Z.of_nat qIdx) - (inject_Z quantity - 1) / 2) * 2 in
         (offsetX - stairWidth / 2, offsetX + stairWidth / 2))
      (seq 0 (Z.to_nat quantity)).

(** The spacing added before gate [idx > 0]. *)
Definition gateSpacing (prevWidth gateWidth : Q) : Q :=
  Qmax (Qmax prevWidth gateWidth + 1) 2.

(** First [forEach] of [getPalletGatesXRanges]: the total span. *)
Fixpoint gatesTotalSpan (prev : option Q) (widths : list Q) (totalSpan : Q) : Q :=
  match widths with
  | [] => totalSpan
  | gateWidth :: rest =>
      let totalSpan :=
        match prev with
        | Some prevWidth => totalSpan + gateSpacing prevWidth gateWidth
        | None => totalSpan
        end in
      gatesTotalSpan (Some gateWidth) rest (totalSpan + gateWidth)
  end.

(** Second [forEach]: the ranges, left to right. *)
Fixpoint gatesRanges (prev : option Q) (widths : list Q) (currentX : Q) : list (Q * Q) :=
  match widths with
  | [] => []
  | gateWidth :: rest =>
      let currentX :=
        match prev with
        | Some prevWidth => currentX + gateSpacing prevWidth gateWidth
        | None => currentX
        end in
      let currentX := currentX + gateWidth / 2 in
      (currentX - gateWidth / 2, currentX + gateWidth / 2)
        :: gatesRanges (Some gateWidth) rest (currentX + gateWidth / 2)
  end.

Definition getPalletGatesXRanges (widths : list Q) : list (Q * Q) :=
  let totalSpan := gatesTotalSpan None widths 0 in
  gatesRanges None widths (- totalSpan / 2).

(** The perimeter path (lines 364-453). *)
Definition perimeterSegments (length width height : Q) (hasRepos : bool) : list Segment :=
  let y := height + railingHeight / 2 in
  let reposZ := - width / 2 - reposDepth / 2 in
  let reposLeftX := - length / 2 in
  let reposFrontZ := - width / 2 in
  let reposOuterZ := reposZ - reposDepth / 2 in
  let frontStartX := reposLeftX + reposLength in
  let frontEndX := length / 2 in
  let frontLength := frontEndX - frontStartX in
  let frontPart :=
    if hasRepos then
      [ mkSegment (reposLeftX, y, reposFrontZ) (reposLeftX, y, reposOuterZ)
          repos_left reposDepth 0;
        mkSegment (reposLeftX, y, reposOuterZ) (reposLeftX + reposLength, y, reposOuterZ)
          repos_front reposLength (0 + reposDepth);
        mkSegment (frontStartX, y, reposFrontZ) (frontEndX, y, reposFrontZ)
          front frontLength (0 + reposDepth + reposLength) ]
    else
      [ mkSegment (- length / 2, y, - width / 2) (length / 2, y, - width / 2)
          front length 0 ] in
  let currentDist :=
    if hasRepos then 0 + reposDepth + reposLength + frontLength else 0 + length in
  frontPart ++
  [ mkSegment (length / 2, y, - width / 2) (length / 2, y, width / 2)
      right width currentDist;
    mkSegment (length / 2, y, width / 2) (- length / 2, y, width / 2)
      back length (currentDist + width);
    mkSegment (- length / 2, y, width / 2) (- length / 2, y, - width / 2)
      left width (currentDist + width + length) ].

(** [perimeterSegments.findIndex(...)] of lines 466-471, returning the edge. *)
Fixpoint findEdge (segs : list Segment) (perimeter currentDistance : Q) : option Segment :=
  match segs with
  | [] => None
  | seg :: rest =>
      let nextEdgeStart :=
        match rest with
        | next :: _ => edgeStartDist next
        | [] => perimeter
        end in
      if Qle_bool (edgeStartDist seg) currentDistance &&
         negb (Qle_bool nextEdgeStart currentDistance)
      then Some seg
      else findEdge rest perimeter currentDistance
  end.

(** Lines 495-501: the first occupied range holding [currentXPos]. *)
Definition gapAt (ranges : list (Q * Q)) (currentXPos : Q) : option (Q * Q) :=
  List.find (fun r => Qle_bool r.1 currentXPos && Qle_bool currentXPos r.2) ranges.

(** Lines 522-529: the first range, in list order, that the chunk
    [startXPos, endXPos] runs into. *)
Definition crossedRange (ranges : list (Q * Q)) (startXPos endXPos : Q) : option (Q * Q) :=
  List.find (fun r => negb (Qle_bool endXPos r.1) && negb (Qle_bool r.1 startXPos)) ranges.

(** [edge.start[0] + (edge.end[0] - edge.start[0]) * (d / edge.edgeLength)] *)
Definition xAt (edge : Segment) (d : Q) : Q :=
  pX (seg_start edge) + (pX (seg_end edge) - pX (seg_start edge)) * (d / edgeLength edge).

(** [currentDistance += step; if (currentDistance >= perimeter) currentDistance = 0] *)
Definition advance (perimeter currentDistance step : Q) : Q :=
  let d := currentDistance + step in
  if Qle_bool perimeter d then 0 else d.

(** The [while] loop of lines 462-596; [fuel] counts the iterations left
    before [iterationCount] reaches [maxIterations]. *)
Fixpoint walk (fuel : nat) (segs : list Segment) (ranges : list (Q * Q))
    (hasRepos : bool) (perimeter currentDistance remainingLength : Q) : list Placement :=
  match fuel with
  | O => []
  | S fuel' =>
      if Qle_bool remainingLength 0.01 then [] else
      match findEdge segs perimeter currentDistance with
      | None => []
      | Some edge =>
          let distanceAlongEdge := currentDistance - edgeStartDist edge in
          let remainingOnEdge := edgeLength edge - distanceAlongEdge in
          if bool_decide (seg_edge edge = repos_front) && hasRepos then
            walk fuel' segs ranges hasRepos perimeter
                 (advance perimeter currentDistance remainingOnEdge) remainingLength
          else
            let currentXPos := xAt edge distanceAlongEdge in
            match (if bool_decide (seg_edge edge = front)
                   then gapAt ranges currentXPos else None) with
            | Some (_, skipToX) =>
                let skipToT :=
                  (skipToX - pX (seg_start edge)) /
                  (pX (seg_end edge) - pX (seg_start edge)) in
                let skipToDistance := skipToT * edgeLength edge in
                let skipAmount := Qmax 0.01 (skipToDistance - distanceAlongEdge) in
                walk fuel' segs ranges hasRepos perimeter
                     (advance perimeter currentDistance skipAmount) remainingLength
            | None =>
                let segmentLen0 := Qmin remainingLength (Qmin remainingOnEdge 3) in
                let segmentLen :=
                  if bool_decide (seg_edge edge = front) then
                    let startXPos := xAt edge distanceAlongEdge in
                    let endXPos := xAt edge (distanceAlongEdge + segmentLen0) in
                    match crossedRange ranges startXPos endXPos with
                    | Some (minX, _) =>
                        let truncateT :=
                          (minX - pX (seg_start edge)) /
                          (pX (seg_end edge) - pX (seg_start edge)) in
                        let truncateDistance := truncateT * edgeLength edge in
                        Qmax 0.05 (truncateDistance - distanceAlongEdge)
                    | None => segmentLen0
                    end
                  else segmentLen0 in
                if negb (Qle_bool 0.05 segmentLen) then
                  walk fuel' segs ranges hasRepos perimeter
                       (advance perimeter currentDistance 0.05) remainingLength
                else
                  let t := (distanceAlongEdge + segmentLen / 2) / edgeLength edge in
                  let posX :=
                    pX (seg_start edge) + (pX (seg_end edge) - pX (seg_start edge)) * t in
                  let posY := pY (seg_start edge) in
                  let posZ :=
                    pZ (seg_start edge) + (pZ (seg_end edge) - pZ (seg_start edge)) * t in
                  mkPlacement (seg_edge edge) (posX, posY, posZ) segmentLen ::
                  walk fuel' segs ranges hasRepos perimeter
                       (advance perimeter currentDistance segmentLen)
                       (remainingLength - segmentLen)
            end
      end
  end.

(** The [Railings] component: the groups it renders, in order. *)
Definition Railings (length width height : Q) (quantity : Z) (segmentLength : Q)
    (stairsQuantity : Z) (palletGatesWidths : list Q) (hasRepos : bool) : list Placement :=
  let perimeter :=
    if hasRepos then 2 * (length + width) + (reposDepth + reposLength)
    else 2 * (length + width) in
  let totalRailingLength := inject_Z quantity * segmentLength in
  if Qle_bool totalRailingLength 0 then [] else
  let stairsXRanges := getStairsXRanges stairsQuantity in
  let palletGatesXRanges := getPalletGatesXRanges palletGatesWidths in
  walk maxIterations (perimeterSegments length width height hasRepos)
       (stairsXRanges ++ palletGatesXRanges) hasRepos perimeter 0
       (Qmin totalRailingLength perimeter).

(** [MezzanineModel], lines 26-101: one [Railings] per railing accessory. *)
Definition MezzanineModel (config : MezzanineConfig) : list (list Placement) :=
  let length := cfg_length config / 1000 in
  let width := cfg_width config / 1000 in
  let height := cfg_height config / 1000 in
  let stairEntries := filter (isType stairs) (cfg_accessories config) in
  let railingEntries := filter (isType railings) (cfg_accessories config) in
  let gateEntries := filter (isType palletGate) (cfg_accessories config) in
  let vinkelStair :=
    List.find (fun s => optIncludes (acc_stairType s) "Vinkel") stairEntries in
  let totalStairsQuantity :=
    fold_left (fun sum stair => (sum + acc_quantity stair)%Z) stairEntries 0%Z in
  let palletGatesWidths :=
    flat_map (fun gate =>
                repeat (parseFloat (widthOrDefault (acc_width gate)) / 1000)
                       (Z.to_nat (acc_quantity gate)))
             gateEntries in
  map (fun railing =>
         Railings length width height (acc_quantity railing)
                  (orElse (acc_length railing) 10)
                  totalStairsQuantity palletGatesWidths
                  (bool_decide (is_Some vinkelStair)))
      railingEntries.

(** The occupied X-ranges the walker is given for a configuration. *)
Definition occupiedXRanges (config : MezzanineConfig) : list (Q * Q) :=
  let stairEntries := filter (isType stairs) (cfg_accessories config) in
  let gateEntries := filter (isType palletGate) (cfg_accessories config) in
  getStairsXRanges
    (fold_left (fun sum stair => (sum + acc_quantity stair)%Z) stairEntries 0%Z) ++
  getPalletGatesXRanges
    (flat_map (fun gate =>
                 repeat (parseFloat (widthOrDefault (acc_width gate)) / 1000)
                        (Z.to_nat (acc_quantity gate)))
              gateEntries).

(** The pallet gates [MezzanineModel] draws (lines 117-165): the second
    [forEach], pushing [{ x: currentX, width: gateWidth }] for each gate. *)
Fixpoint gatesPositions (prev : option Q) (widths : list Q) (currentX : Q) : list (Q * Q) :=
  match widths with
  | [] => []
  | gateWidth :: rest =>
      let currentX :=
        match prev with
        | Some prevWidth => currentX + gateSpacing prevWidth gateWidth
        | None => currentX
        end in
      let currentX := currentX + gateWidth / 2 in
      (currentX, gateWidth) :: gatesPositions (Some gateWidth) rest (currentX + gateWidth / 2)
  end.

(** [positions] of lines 128-154: centre [x] and [width] of every gate;
    the total span is computed by the same loop as in
    [getPalletGatesXRanges]. *)
Definition palletGatePositions (allGateWidths : list Q) : list (Q * Q) :=
  let totalSpan := gatesTotalSpan None allGateWidths 0 in
  gatesPositions None allGateWidths (- totalSpan / 2).

(** [allGateWidths] of lines 119-123. *)
Definition allGateWidths (config : MezzanineConfig) : list Q :=
  flat_map (fun gate =>
              repeat (parseFloat (widthOrDefault (acc_width gate)) / 1000)
                     (Z.to_nat (acc_quantity gate)))
           (filter (isType palletGate) (cfg_accessories config)).

(** [SupportColumns] (lines 171-213): the 4.5 m rule. *)
Definition maxSectionSize : Q := 4.5.

Definition columnDivisions (size : Q) : Z := Qceiling (size / maxSectionSize).

Definition columnSpacing (size : Q) : Q := size / inject_Z (columnDivisions size).

(** The nested [for] loops: [i] from 0 to [lengthDivisions], [j] from 0 to
    [widthDivisions], both included. *)
Definition SupportColumns (length width height : Q) : list Point :=
  let lengthDivisions := columnDivisions length in
  let widthDivisions := columnDivisions width in
  let lengthSpacing := columnSpacing length in
  let widthSpacing := columnSpacing width in
  flat_map
    (fun i : nat =>
       map (fun j : nat =>
              let x := - length / 2 + inject_Z (Z.of_nat i) * lengthSpacing in
              let z := - width / 2 + inject_Z (Z.of_nat j) * widthSpacing in
              (x, height / 2, z))
           (seq 0 (Z.to_nat (widthDivisions + 1))))
    (seq 0 (Z.to_nat (lengthDivisions + 1))).

End Viewer.

(* ================================================================== *)
(** ** The resolver as the specification words it                      *)
(* ================================================================== *)

Module Resolver.
Import Panel.

(** Shrinking one railing so that it gives up [excess] meters: first the
    per-unit length alone (same quantity), rounded down to whole meters, as
    long as that leaves at least 1 m per unit; otherwise the quantity drops to
    [max(1, floor(newTotal / originalLength))] and the length becomes
    [floor(newTotal / newQuantity)], floored at 1. *)
Definition shrinkRailing (railing : Accessory) (excess : Q) : Accessory :=
  let originalLength := orElse (acc_length railing) 0 in
  let newTotal := consumedLength railing - excess in
  let sameQuantityLength := newTotal / inject_Z (acc_quantity railing) in
  if Qlt_le_dec sameQuantityLength 1 then
    let newQuantity := Z.max 1 (Qfloor (newTotal / originalLength)) in
    {| acc_id := acc_id railing;
       acc_type := acc_type railing;
       acc_quantity := newQuantity;
       acc_stairType := acc_stairType railing;
       acc_length := Some (inject_Z (Z.max 1 (Qfloor (newTotal / inject_Z newQuantity))));
       acc_width := acc_width railing |}
  else
    {| acc_id := acc_id railing;
       acc_type := acc_type railing;
       acc_quantity := acc_quantity railing;
       acc_stairType := acc_stairType railing;
       acc_length := Some (inject_Z (Qfloor sameQuantityLength));
       acc_width := acc_width railing |}.

(** Walking backward from the most recently added accessory: the entries
    after [a] are dealt with first and hand on the excess still to absorb.
    A railing met while excess remains is removed whole when its consumed
    length is at most that excess, and shrunk otherwise (which absorbs all of
    it); everything else is kept. *)
Fixpoint absorbExcess (accs : list Accessory) (excess : Q) : list Accessory * Q :=
  match accs with
  | [] => ([], excess)
  | a :: newer =>
      let '(newer', remaining) := absorbExcess newer excess in
      if decide (isType railings a) then
        if Qlt_le_dec 0 remaining then
          if Qlt_le_dec remaining (consumedLength a)
          then (shrinkRailing a remaining :: newer', 0)
          else (newer', remaining - consumedLength a)
        else (a :: newer', remaining)
      else (a :: newer', remaining)
  end.

(** No-op when the requested railing length fits, otherwise absorb
    [requested - available]. *)
Definition autoFit (config : MezzanineConfig) : list Accessory :=
  let available := calculateAvailablePerimeter config in
  let requested := calculateTotalRailingLength (cfg_accessories config) in
  if Qlt_le_dec available requested
  then (absorbExcess (cfg_accessories config) (requested - available)).1
  else cfg_accessories config.

End Resolver.

(* ================================================================== *)
(** ** Well-formed configurations (the data model's invariants)        *)
(* ================================================================== *)

(** A railing has quantity >= 1 and a per-unit length >= 1. *)
Definition railingOk (a : Accessory) : Prop :=
  isType railings a ->
  (1 <= acc_quantity a)%Z /\ exists l, acc_length a = Some l /\ 1 <= l.

(** Every accessory has its own identifier. *)
Definition uniqueIds (accs : list Accessory) : Prop := NoDup (acc_id <$> accs).

(** Sum of [consumedLength] over the railings of a list. *)
Fixpoint railingTotal (accs : list Accessory) : Q :=
  match accs with
  | [] => 0
  | a :: rest =>
      (if decide (isType railings a) then Panel.consumedLength a else 0) + railingTotal rest
  end.

Definition notRailing (a : Accessory) : Prop := acc_type a <> railings.

#[global] Instance notRailing_dec a : Decision (notRailing a).
Proof. unfold notRailing. apply _. Defined.

(** Number of corner (Vinkel) stairs in a list. *)
Definition cornerStairCount (accs : list Accessory) : nat :=
  length (filter (fun a => Panel.isVinkelStair a = true) accs).

(** Sum of the quantities of the stairs of a list. *)
Fixpoint stairsQuantity (accs : list Accessory) : Z :=
  match accs with
  | [] => 0
  | a :: rest =>
      ((if decide (isType stairs a) then acc_quantity a else 0) + stairsQuantity rest)%Z
  end.

(* ================================================================== *)
(** ** Sample configurations                                           *)
(* ================================================================== *)

Module Examples.

(** The default platform of [App.tsx], 9400 mm x 4000 mm. *)
Definition platform (accs : list Accessory) : MezzanineConfig :=
  mkConfig 9400 4000 3000 Load250 accs.

Definition railing (id : string) (quantity : Z) (length : Q) : Accessory :=
  mkAccessory id railings quantity None (Some length) None.

Definition stair (id : string) (quantity : Z) (stairType : string) : Accessory :=
  mkAccessory id stairs quantity (Some stairType) None None.

Definition gate (id : string) (quantity : Z) (width : PalletGateWidth) : Accessory :=
  mkAccessory id palletGate quantity None None (Some width).

End Examples.

(* ================================================================== *)
(** ** JavaScript numbers as IEEE 754 doubles                          *)
(* ================================================================== *)

(** The resolver takes [Math.floor] of a difference of sums and compares
    sums with [<=] and [>], so what it returns can turn on the last bit of a
    number.  The modules below embed the panel once more, with every number
    a binary64 value ([PrimFloat.float]) and JavaScript's own operators:
    [+ - * /] round to nearest, ties to even; comparisons with [NaN] are
    false. *)
Module JS.
#[local] Open Scope float_scope.

(** [Math.floor(x)]: the largest whole number not above [x]; zeros,
    infinities and [NaN] are returned as they are. *)
Definition Math_floor (x : float) : float :=
  match Prim2SF x with
  | S754_finite s m e =>
      if (0 <=? e)%Z then x
      else
        let n := ((if s then Z.neg m else Z.pos m) / 2 ^ (- e))%Z in
        if (n =? 0)%Z then 0
        else SF2Prim (S754_finite (n <? 0)%Z (Z.to_pos (Z.abs n)) 0)
  | _ => x
  end.

(** [Math.max(a, b)]: [NaN] when either is [NaN]; [+0] counts as larger
    than [-0]. *)
Definition Math_max (a b : float) : float :=
  if is_nan a || is_nan b then nan
  else if a <? b then b
  else if b <? a then a
  else if get_sign a then b else a.

(** A number used as a condition: [0], [-0] and [NaN] are falsy. *)
Definition falsy (x : float) : bool := is_zero x || is_nan x.

(** [x || d] on an optional number. *)
Definition orElse (x : option float) (d : float) : float :=
  match x with
  | Some v => if falsy v then d else v
  | None => d
  end.

End JS.

(* ================================================================== *)
(** ** The panel over doubles ([ConfigurationPanel.tsx], lines 8-264)  *)
(* ================================================================== *)

Module Panel64.
Import JS.
#[local] Open Scope float_scope.

(** [interface Accessory], numbers as doubles. *)
Record Accessory := mkAccessory {
  acc_id : string;
  acc_type : AccessoryType;
  acc_quantity : float;
  acc_stairType : option string;
  acc_length : option float;      (* in meters *)
  acc_width : option PalletGateWidth
}.

(** [interface MezzanineConfig]: dimensions in millimeters. *)
Record MezzanineConfig := mkConfig {
  cfg_length : float;
  cfg_width : float;
  cfg_height : float;
  cfg_loadCapacity : LoadCapacity;
  cfg_accessories : list Accessory
}.

(** [{ ...config, accessories }] *)
Definition withAccessories (config : MezzanineConfig) (accs : list Accessory)
  : MezzanineConfig :=
  {| cfg_length := cfg_length config;
     cfg_width := cfg_width config;
     cfg_height := cfg_height config;
     cfg_loadCapacity := cfg_loadCapacity config;
     cfg_accessories := accs |}.

Definition isType (t : AccessoryType) (a : Accessory) : Prop := acc_type a = t.

#[global] Instance isType_dec t a : Decision (isType t a).
Proof. unfold isType. apply _. Defined.

(** [parseFloat(w)] on the three literal widths. *)
Definition parseFloat (w : PalletGateWidth) : float :=
  match w with
  | W2000mm => 2000
  | W2500mm => 2500
  | W3000mm => 3000
  end.

Definition REPOS_LENGTH : float := 3.0.
Definition REPOS_DEPTH : float := 1.4.

(** [a.type === 'stairs' && a.stairType?.includes('Vinkel')] *)
Definition isVinkelStair (a : Accessory) : bool :=
  bool_decide (acc_type a = stairs) && optIncludes (acc_stairType a) "Vinkel".

Definition calculatePerimeter (length width : float) (accessories : list Accessory)
  : float :=
  let perimeter := 2 * ((length / 1000) + (width / 1000)) in
  let hasVinkelStair := existsb isVinkelStair accessories in
  if hasVinkelStair
  then perimeter + (2 * REPOS_DEPTH + REPOS_LENGTH)
  else perimeter.

(** One step of the [forEach] in [calculateStairsSpace]. *)
Definition stairSpaceStep (space : float) (stair : Accessory) : float :=
  let space := space + acc_quantity stair * 1.0 in
  if optIncludes (acc_stairType stair) "Vinkel"
  then space + REPOS_DEPTH
  else space.

Definition calculateStairsSpace (accessories : list Accessory) : float :=
  fold_left stairSpaceStep (filter (isType stairs) accessories) 0.

Definition calculatePalletGatesSpace (accessories : list Accessory) : float :=
  fold_left
    (fun sum gate =>
       let gateWidth := parseFloat (widthOrDefault (acc_width gate)) / 1000 in
       sum + acc_quantity gate * gateWidth)
    (filter (isType palletGate) accessories) 0.

(** [railing.quantity * (railing.length || 0)] *)
Definition consumedLength (railing : Accessory) : float :=
  acc_quantity railing * orElse (acc_length railing) 0.

Definition calculateTotalRailingLength (accessories : list Accessory) : float :=
  fold_left (fun sum railing => sum + consumedLength railing)
            (filter (isType railings) accessories) 0.

Definition calculateAvailablePerimeter (config : MezzanineConfig) : float :=
  let perimeter :=
    calculatePerimeter (cfg_length config) (cfg_width config) (cfg_accessories config) in
  let stairsSpace := calculateStairsSpace (cfg_accessories config) in
  let palletGatesSpace := calculatePalletGatesSpace (cfg_accessories config) in
  Math_max 0 (perimeter - stairsSpace - palletGatesSpace).

(** The [else] branch of the loop body (lines 102-126): the replacement
    written to [adjustedAccessories[railingIndex]]. *)
Definition reducedRailing (railing : Accessory) (remainingToReduce : float) : Accessory :=
  let currentLength := consumedLength railing in
  let length := orElse (acc_length railing) 10 in
  let quantity := acc_quantity railing in
  let newTotalLength := currentLength - remainingToReduce in
  let newLength := newTotalLength / quantity in
  if 1 <=? newLength then
    {| acc_id := acc_id railing;
       acc_type := acc_type railing;
       acc_quantity := acc_quantity railing;
       acc_stairType := acc_stairType railing;
       acc_length := Some (Math_floor newLength);
       acc_width := acc_width railing |}
  else
    let newQuantity := Math_max 1 (Math_floor (newTotalLength / length)) in
    let finalLength := Math_floor (newTotalLength / newQuantity) in
    {| acc_id := acc_id railing;
       acc_type := acc_type railing;
       acc_quantity := newQuantity;
       acc_stairType := acc_stairType railing;
       acc_length := Some (Math_max 1 finalLength);
       acc_width := acc_width railing |}.

(** The [for] loop of lines 89-130.  [pending] lists [railings[i]] for
    [i = railings.length - 1] down to [0]; the loop also stops as soon as
    [remainingToReduce > 0] fails. *)
Fixpoint reduceLoop (pending : list Accessory) (adjustedAccessories : list Accessory)
    (remainingToReduce : float) : list Accessory :=
  match pending with
  | [] => adjustedAccessories
  | railing :: pending' =>
      if 0 <? remainingToReduce then
        match list_find (fun a => acc_id a = acc_id railing) adjustedAccessories with
        | None => reduceLoop pending' adjustedAccessories remainingToReduce
        | Some (railingIndex, _) =>
            let currentLength := consumedLength railing in
            if currentLength <=? remainingToReduce then
              reduceLoop pending'
                (delete railingIndex adjustedAccessories)
                (remainingToReduce - currentLength)
            else
              reduceLoop pending'
                (<[railingIndex := reducedRailing railing remainingToReduce]>
                   adjustedAccessories)
                0
        end
      else adjustedAccessories
  end.

Definition autoAdjustRailingsForPerimeter (config : MezzanineConfig) : list Accessory :=
  let availablePerimeter := calculateAvailablePerimeter config in
  let currentRailingLength := calculateTotalRailingLength (cfg_accessories config) in
  if currentRailingLength <=? availablePerimeter then cfg_accessories config
  else
    let excessLength := currentRailingLength - availablePerimeter in
    let railingEntries := filter (isType railings) (cfg_accessories config) in
    reduceLoop (reverse railingEntries) (cfg_accessories config) excessLength.

(** The [alert] a handler raises, if any, and the configuration it passes to
    [onConfigChange], if it calls it. *)
Inductive Alert :=
  | CannotAddRailings (availablePerimeter currentUsage : float)
  | OnlyOneVinkelAllowed
  | CannotUpdateRailings (availablePerimeter requestedTotal : float)
  | RailingsReduced (reduced : float).

Record Effect := mkEffect {
  alerted : option Alert;
  changed : option MezzanineConfig
}.

(** The object literal of lines 157-164; [now] is the text of [Date.now()]. *)
Definition newAccessory (type : AccessoryType) (now : string) : Accessory :=
  {| acc_id := Panel.typeName type ++ "-" ++ now;
     acc_type := type;
     acc_quantity := 1;
     acc_stairType := if decide (type = stairs) then Some "Straight 1m"%string else None;
     acc_length := if decide (type = railings) then Some 10 else None;
     acc_width := if decide (type = palletGate) then Some W2000mm else None |}.

Definition addAccessory (config : MezzanineConfig) (type : AccessoryType) (now : string)
  : Effect :=
  let availablePerimeter := calculateAvailablePerimeter config in
  let currentRailingLength := calculateTotalRailingLength (cfg_accessories config) in
  let defaultLength := 10 in
  if decide (type = railings) then
    if availablePerimeter <? currentRailingLength + defaultLength then
      mkEffect (Some (CannotAddRailings availablePerimeter currentRailingLength)) None
    else
      mkEffect None
        (Some (withAccessories config (cfg_accessories config ++ [newAccessory type now])))
  else
    let newAccessories := cfg_accessories config ++ [newAccessory type now] in
    let adjustedAccessories :=
      autoAdjustRailingsForPerimeter (withAccessories config newAccessories) in
    mkEffect None (Some (withAccessories config adjustedAccessories)).

Definition removeAccessory (config : MezzanineConfig) (id : string) : Effect :=
  mkEffect None
    (Some (withAccessories config
             (filter (fun a => acc_id a <> id) (cfg_accessories config)))).

(** [Partial<Accessory>] *)
Record AccessoryUpdates := mkUpdates {
  upd_id : option string;
  upd_type : option AccessoryType;
  upd_quantity : option float;
  upd_stairType : option string;
  upd_length : option float;
  upd_width : option PalletGateWidth
}.

(** [{ ...a, ...updates }] *)
Definition applyUpdates (a : Accessory) (updates : AccessoryUpdates) : Accessory :=
  {| acc_id := default (acc_id a) (upd_id updates);
     acc_type := default (acc_type a) (upd_type updates);
     acc_quantity := default (acc_quantity a) (upd_quantity updates);
     acc_stairType :=
       match upd_stairType updates with Some s => Some s | None => acc_stairType a end;
     acc_length :=
       match upd_length updates with Some l => Some l | None => acc_length a end;
     acc_width :=
       match upd_width updates with Some w => Some w | None => acc_width a end |}.

(** Lines 216-218: the other railings' total. *)
Definition otherRailingsLength (accessories : list Accessory) (id : string) : float :=
  fold_left (fun sum r => sum + consumedLength r)
    (filter (fun a => acc_type a = railings /\ acc_id a <> id) accessories) 0.

(** Lines 198-209: does the Vinkel validation reject the update? *)
Definition vinkelRejected (config : MezzanineConfig) (accessory : Accessory)
    (id : string) (updates : AccessoryUpdates) : bool :=
  match Panel.truthyStairType (upd_stairType updates) with
  | Some st =>
      bool_decide (acc_type accessory = stairs) &&
      (let isVinkel := includes st "Vinkel" in
       let currentVinkelStairs :=
         filter (fun a => isVinkelStair a = true /\ acc_id a <> id)
                (cfg_accessories config) in
       isVinkel && bool_decide (0 < List.length currentVinkelStairs)%nat)
  | None => false
  end.

(** Lines 220-225: the total the railing edit asks for, summed as the
    handler sums it: the other railings first, the edited railing last. *)
Definition requestedRailingTotal (config : MezzanineConfig) (accessory : Accessory)
    (id : string) (updates : AccessoryUpdates) : float :=
  let newQuantity := default (acc_quantity accessory) (upd_quantity updates) in
  let newLength :=
    match upd_length updates with
    | Some l => l
    | None => orElse (acc_length accessory) 0
    end in
  let newTotalForThis := newQuantity * newLength in
  otherRailingsLength (cfg_accessories config) id + newTotalForThis.

Definition updateAccessory (config : MezzanineConfig) (id : string)
    (updates : AccessoryUpdates) : Effect :=
  match list_find (fun a => acc_id a = id) (cfg_accessories config) with
  | None => mkEffect None None
  | Some (_, accessory) =>
      if vinkelRejected config accessory id updates then
        mkEffect (Some OnlyOneVinkelAllowed) None
      else
        let availablePerimeter := calculateAvailablePerimeter config in
        let totalRailingLength := requestedRailingTotal config accessory id updates in
        if bool_decide (acc_type accessory = railings) &&
           (availablePerimeter <? totalRailingLength)
        then
          mkEffect (Some (CannotUpdateRailings availablePerimeter totalRailingLength)) None
        else
          let newAccessories :=
            fmap (fun a => if decide (acc_id a = id) then applyUpdates a updates else a)
                 (cfg_accessories config) in
          if (bool_decide (acc_type accessory = stairs) ||
              bool_decide (acc_type accessory = palletGate)) &&
             bool_decide (is_Some (upd_quantity updates))
          then
            let adjustedAccessories :=
              autoAdjustRailingsForPerimeter (withAccessories config newAccessories) in
            let originalRailingLength := calculateTotalRailingLength newAccessories in
            let adjustedRailingLength := calculateTotalRailingLength adjustedAccessories in
            mkEffect
              (if originalRailingLength =? adjustedRailingLength then None
               else Some (RailingsReduced (originalRailingLength - adjustedRailingLength)))
              (Some (withAccessories config adjustedAccessories))
          else
            mkEffect None (Some (withAccessories config newAccessories))
  end.

(** *** Conditions on a configuration *)

(** Every accessory has its own identifier. *)
Definition uniqueIds (accs : list Accessory) : Prop := NoDup (acc_id <$> accs).

Definition notRailing (a : Accessory) : Prop := acc_type a <> railings.

#[global] Instance notRailing_dec a : Decision (notRailing a).
Proof. unfold notRailing. apply _. Defined.

(** The resolver's own test (line 77): the railings fit. *)
Definition fits (config : MezzanineConfig) : bool :=
  calculateTotalRailingLength (cfg_accessories config)
  <=? calculateAvailablePerimeter config.

(** The handlers' test (lines 151 and 227), on the stored railings: their
    total is above the available perimeter. *)
Definition exceeds (config : MezzanineConfig) : bool :=
  calculateAvailablePerimeter config
  <? calculateTotalRailingLength (cfg_accessories config).

End Panel64.

(* ================================================================== *)
(** ** The resolver as the specification words it, over doubles        *)
(* ================================================================== *)

(** Nothing here goes through the panel's helpers: the consumed length, the
    requested total and the walk are written from the specification; the
    available perimeter is an argument. *)
Module Resolver64.
Import JS Panel64.
#[local] Open Scope float_scope.

(** The per-unit length of a railing; a railing without one (no length, 0
    or not a number) counts as 0 m. *)
Definition perUnitLength (railing : Accessory) : float :=
  orElse (acc_length railing) 0.

(** The full consumed length of a railing: quantity x per-unit length. *)
Definition consumed (railing : Accessory) : float :=
  acc_quantity railing * perUnitLength railing.

(** The total requested railing length: the consumed lengths of the railings
    added up from the oldest entry on. *)
Fixpoint requestedFrom (sum : float) (accs : list Accessory) : float :=
  match accs with
  | [] => sum
  | a :: newer =>
      requestedFrom (if decide (isType railings a) then sum + consumed a else sum) newer
  end.

Definition requested (accs : list Accessory) : float := requestedFrom 0 accs.

(** Shrinking one railing so that it gives up [excess] meters: first the
    per-unit length alone (same quantity), rounded down to whole meters, as
    long as that leaves at least 1 m per unit; otherwise the quantity drops to
    [max(1, floor(newTotal / originalLength))] and the length becomes
    [floor(newTotal / newQuantity)], floored at 1. *)
Definition shrinkRailing (railing : Accessory) (excess : float) : Accessory :=
  let originalLength := perUnitLength railing in
  let newTotal := consumed railing - excess in
  let sameQuantityLength := newTotal / acc_quantity railing in
  if 1 <=? sameQuantityLength then
    {| acc_id := acc_id railing;
       acc_type := acc_type railing;
       acc_quantity := acc_quantity railing;
       acc_stairType := acc_stairType railing;
       acc_length := Some (Math_floor sameQuantityLength);
       acc_width := acc_width railing |}
  else
    let newQuantity := Math_max 1 (Math_floor (newTotal / originalLength)) in
    {| acc_id := acc_id railing;
       acc_type := acc_type railing;
       acc_quantity := newQuantity;
       acc_stairType := acc_stairType railing;
       acc_length := Some (Math_max 1 (Math_floor (newTotal / newQuantity)));
       acc_width := acc_width railing |}.

(** Walking backward from the most recently added accessory: the entries
    after [a] are dealt with first and hand on the excess still to absorb.
    A railing met while excess remains is removed whole when its full
    consumed length is at most that excess, and shrunk otherwise (which
    absorbs all of it); everything else is kept. *)
Fixpoint absorbExcess (accs : list Accessory) (excess : float) : list Accessory * float :=
  match accs with
  | [] => ([], excess)
  | a :: newer =>
      let '(newer', remaining) := absorbExcess newer excess in
      if decide (isType railings a) then
        if 0 <? remaining then
          if consumed a <=? remaining
          then (newer', remaining - consumed a)
          else (shrinkRailing a remaining :: newer', 0)
        else (a :: newer', remaining)
      else (a :: newer', remaining)
  end.

(** No-op when the requested railing length fits in [available], otherwise
    absorb [requested - available]. *)
Definition autoFit (available : float) (accs : list Accessory) : list Accessory :=
  if requested accs <=? available then accs
  else (absorbExcess accs (requested accs - available)).1.

End Resolver64.

(** Sample configurations over doubles. *)
Module Examples64.
Import Panel64.
#[local] Open Scope float_scope.

(** The default platform of [App.tsx], 9400 mm x 4000 mm. *)
Definition platform (accs : list Accessory) : MezzanineConfig :=
  mkConfig 9400 4000 3000 Load250 accs.

(** A narrow platform, 2300 mm x 4000 mm. *)
Definition narrow (accs : list Accessory) : MezzanineConfig :=
  mkConfig 2300 4000 3000 Load250 accs.

Definition railing (id : string) (quantity length : float) : Accessory :=
  mkAccessory id railings quantity None (Some length) None.

Definition stair (id : string) (quantity : float) (stairType : string) : Accessory :=
  mkAccessory id stairs quantity (Some stairType) None None.

Definition gate (id : string) (quantity : float) (width : PalletGateWidth) : Accessory :=
  mkAccessory id palletGate quantity None None (Some width).

End Examples64.

(** [Panel64.uniqueIds] on a list written out in full. *)
Ltac concrete_unique_ids64 :=
  unfold Panel64.uniqueIds; apply (bool_decide_unpack _); vm_compute; exact I.

(** [railingOk] on a list written out in full. *)
Ltac concrete_railings_ok :=
  repeat first [apply Forall_nil_2 | apply Forall_cons_2];
  intros Hr; try discriminate Hr;
  (split; [cbn; lia|]); eexists; (split; [reflexivity|]); lra.

(** [uniqueIds] on a list written out in full. *)
Ltac concrete_unique_ids :=
  unfold uniqueIds; apply (bool_decide_unpack _); vm_compute; exact I.

(* ================================================================== *)
(** ** Lemmas: sums and the occupancy calculator                       *)
(* ================================================================== *)

Section Sums.
Import Panel.

Lemma fold_left_Qplus {A} (f : A -> Q) (l : list A) (acc : Q) :
  fold_left (fun s a => s + f a) l acc == acc + fold_left (fun s a => s + f a) l 0.
Proof.
  revert acc. induction l as [|a l IH]; intros acc; simpl.
  - lra.
  - rewrite (IH (acc + f a)), (IH (0 + f a)). lra.
Qed.

Lemma calculateTotalRailingLength_cons a accs :
  calculateTotalRailingLength (a :: accs) ==
  (if decide (isType railings a) then consumedLength a else 0)
  + calculateTotalRailingLength accs.
Proof.
  unfold calculateTotalRailingLength. rewrite filter_cons.
  destruct (decide (isType railings a)); simpl.
  - rewrite fold_left_Qplus. lra.
  - lra.
Qed.

Lemma calculateTotalRailingLength_total accs :
  calculateTotalRailingLength accs == railingTotal accs.
Proof.
  induction accs as [|a accs IH].
  - reflexivity.
  - rewrite calculateTotalRailingLength_cons. simpl. rewrite IH. reflexivity.
Qed.

Lemma railingTotal_app l1 l2 :
  railingTotal (l1 ++ l2) == railingTotal l1 + railingTotal l2.
Proof.
  induction l1 as [|a l1 IH]; simpl.
  - lra.
  - rewrite IH. lra.
Qed.

Lemma railingTotal_notRailing l : Forall notRailing l -> railingTotal l = 0.
Proof.
  induction 1 as [|a l Ha _ IH]; simpl; [reflexivity|].
  destruct (decide (isType railings a)) as [Hr|_]; [by destruct Ha|].
  rewrite IH. reflexivity.
Qed.

Lemma railingTotal_filter_notRailing l : railingTotal (filter notRailing l) = 0.
Proof.
  apply railingTotal_notRailing, Forall_forall.
  intros a Ha. by apply list_elem_of_filter in Ha as [? _].
Qed.

End Sums.

Section Frame.
Import Panel.

Lemma filter_type_notRailing t (l : list Accessory) :
  t <> railings ->
  filter (isType t) (filter notRailing l) = filter (isType t) l.
Proof.
  intros Ht. induction l as [|a l IH]; [reflexivity|].
  rewrite (filter_cons notRailing), (filter_cons (isType t)).
  destruct (decide (notRailing a)) as [Hn|Hn].
  - rewrite filter_cons, IH. reflexivity.
  - rewrite IH. destruct (decide (isType t a)) as [Hta|]; [|reflexivity].
    exfalso. apply Hn. unfold notRailing, isType in *. congruence.
Qed.

Lemma isVinkelStair_notRailing a : isVinkelStair a = true -> notRailing a.
Proof.
  unfold isVinkelStair, notRailing. intros [H _]%andb_prop.
  apply bool_decide_eq_true in H. congruence.
Qed.

Lemma existsb_isVinkelStair_notRailing (l : list Accessory) :
  existsb isVinkelStair (filter notRailing l) = existsb isVinkelStair l.
Proof.
  induction l as [|a l IH]; [reflexivity|].
  rewrite filter_cons. simpl. destruct (decide (notRailing a)) as [Hn|Hn]; simpl.
  - by rewrite IH.
  - rewrite IH. destruct (isVinkelStair a) eqn:Hv; [|reflexivity].
    by apply isVinkelStair_notRailing in Hv.
Qed.

(** The available perimeter only looks at the accessories that are not
    railings. *)
Lemma calculateAvailablePerimeter_frame config (l1 l2 : list Accessory) :
  filter notRailing l1 = filter notRailing l2 ->
  calculateAvailablePerimeter (withAccessories config l1) =
  calculateAvailablePerimeter (withAccessories config l2).
Proof.
  intros Heq. unfold calculateAvailablePerimeter, calculatePerimeter,
    calculateStairsSpace, calculatePalletGatesSpace. simpl.
  rewrite <- (existsb_isVinkelStair_notRailing l1),
          <- (existsb_isVinkelStair_notRailing l2),
          <- (filter_type_notRailing stairs l1), <- (filter_type_notRailing stairs l2),
          <- (filter_type_notRailing palletGate l1),
          <- (filter_type_notRailing palletGate l2), Heq by done.
  reflexivity.
Qed.

Lemma withAccessories_same config : withAccessories config (cfg_accessories config) = config.
Proof. by destruct config. Qed.

End Frame.

(* ================================================================== *)
(** ** Lemmas: the loop of the source against [absorbExcess]           *)
(* ================================================================== *)

Section Refinement.
Import Panel Resolver.

Lemma absorbExcess_nonpos accs excess :
  excess <= 0 -> absorbExcess accs excess = (accs, excess).
Proof.
  intros He. induction accs as [|a accs IH]; simpl; [reflexivity|].
  rewrite IH. destruct (decide (isType railings a)); [|reflexivity].
  destruct (Qlt_le_dec 0 excess); [lra|reflexivity].
Qed.

Lemma absorbExcess_app l1 l2 excess :
  absorbExcess (l1 ++ l2) excess =
  let '(l2', r2) := absorbExcess l2 excess in
  let '(l1', r1) := absorbExcess l1 r2 in
  (l1' ++ l2', r1).
Proof.
  induction l1 as [|a l1 IH]; simpl.
  - by destruct (absorbExcess l2 excess).
  - rewrite IH. destruct (absorbExcess l2 excess) as [l2' r2].
    destruct (absorbExcess l1 r2) as [l1' r1].
    destruct (decide (isType railings a)); [|reflexivity].
    destruct (Qlt_le_dec 0 r1); [|reflexivity].
    destruct (Qlt_le_dec r1 (consumedLength a)); reflexivity.
Qed.

(** Where the loop shrinks a railing its length is not 0, so the default
    of [railing.length || 10] never shows. *)
Lemma reducedRailing_shrinkRailing railing r :
  0 < r -> r < consumedLength railing ->
  reducedRailing railing r = shrinkRailing railing r.
Proof.
  intros Hr Hlt. unfold reducedRailing, shrinkRailing.
  assert (orElse (acc_length railing) 10 = orElse (acc_length railing) 0) as ->;
    [|reflexivity].
  unfold consumedLength, orElse in *.
  destruct (acc_length railing) as [v|].
  - destruct (Qeq_dec v 0); [|reflexivity]. exfalso.
    assert (inject_Z (acc_quantity railing) * 0 == 0) by ring. lra.
  - exfalso. assert (inject_Z (acc_quantity railing) * 0 == 0) by ring. lra.
Qed.

Lemma reduceLoop_nonpos pending adjusted r :
  r <= 0 -> reduceLoop pending adjusted r = adjusted.
Proof.
  intros Hr. destruct pending as [|railing pending]; simpl; [reflexivity|].
  destruct (Qlt_le_dec 0 r); [lra|reflexivity].
Qed.

Lemma list_find_unique_id (pre suf : list Accessory) a :
  NoDup (acc_id <$> (pre ++ a :: suf)) ->
  list_find (fun x => acc_id x = acc_id a) (pre ++ a :: suf) = Some (length pre, a).
Proof.
  intros Hnd. apply list_find_Some. split_and!.
  - by apply list_lookup_middle.
  - reflexivity.
  - intros j y Hj Hlt Hid.
    rewrite lookup_app_l in Hj by done.
    rewrite fmap_app, fmap_cons in Hnd.
    apply NoDup_app in Hnd as (_ & Hdisj & _).
    apply (Hdisj (acc_id y)).
    + apply list_elem_of_fmap. exists y. split; [done|]. by eapply list_elem_of_lookup_2.
    + rewrite Hid. apply list_elem_of_here.
Qed.

Lemma uniqueIds_delete_middle (pre suf : list Accessory) a :
  NoDup (acc_id <$> (pre ++ a :: suf)) -> NoDup (acc_id <$> (pre ++ suf)).
Proof.
  rewrite !fmap_app, fmap_cons. intros Hnd.
  eapply sublist_NoDup; [exact Hnd|].
  apply sublist_app; [reflexivity|]. by apply sublist_cons.
Qed.

(** With the railings of [pre] still to visit and [pre ++ suf] the array
    built so far, the loop ends with what [absorbExcess] makes of [pre]. *)
Lemma reduceLoop_absorbExcess (pre : list Accessory) : forall suf r,
  NoDup (acc_id <$> (pre ++ suf)) ->
  reduceLoop (reverse (filter (isType railings) pre)) (pre ++ suf) r =
  (absorbExcess pre r).1 ++ suf.
Proof.
  induction pre as [|a pre IH] using rev_ind; intros suf r Hnd.
  - reflexivity.
  - rewrite absorbExcess_app, filter_app, filter_cons, filter_nil. simpl.
    rewrite <- app_assoc in Hnd |- *. simpl in Hnd |- *.
    destruct (decide (isType railings a)) as [Ha|Ha].
    + rewrite reverse_snoc. simpl.
      destruct (Qlt_le_dec 0 r) as [Hr|Hr].
      * rewrite (list_find_unique_id pre suf a Hnd).
        destruct (Qlt_le_dec r (consumedLength a)) as [Hc|Hc].
        -- rewrite reduceLoop_nonpos by lra.
           rewrite absorbExcess_nonpos by lra. simpl.
           rewrite <- app_assoc. simpl.
           rewrite reducedRailing_shrinkRailing by done.
           replace (length pre) with (length pre + 0)%nat by lia.
           by rewrite insert_app_r.
        -- rewrite delete_middle.
           rewrite (IH suf (r - consumedLength a)) by by eapply uniqueIds_delete_middle.
           destruct (absorbExcess pre (r - consumedLength a)) as [pre' r'].
           simpl. by rewrite app_nil_r.
      * rewrite absorbExcess_nonpos by done. simpl. by rewrite <- app_assoc.
    + rewrite app_nil_r. rewrite (IH (a :: suf) r) by done.
      destruct (absorbExcess pre r) as [pre' r']. simpl.
      by rewrite <- app_assoc.
Qed.

(** The source's resolver is the specification's, on unique identifiers. *)
Lemma autoAdjust_autoFit config :
  uniqueIds (cfg_accessories config) ->
  autoAdjustRailingsForPerimeter config = autoFit config.
Proof.
  intros Hnd. unfold autoAdjustRailingsForPerimeter, autoFit.
  destruct (Qlt_le_dec _ _); [|reflexivity].
  pose proof (reduceLoop_absorbExcess (cfg_accessories config) []
    (calculateTotalRailingLength (cfg_accessories config)
     - calculateAvailablePerimeter config)) as H.
  rewrite !app_nil_r in H. apply H. exact Hnd.
Qed.

End Refinement.

(* ================================================================== *)
(** ** Lemmas: what the resolver leaves behind                         *)
(* ================================================================== *)

Section Shape.
Import Panel Resolver.

Lemma shrinkRailing_id r rho : acc_id (shrinkRailing r rho) = acc_id r.
Proof. unfold shrinkRailing. by destruct (Qlt_le_dec _ _). Qed.

Lemma shrinkRailing_type r rho : acc_type (shrinkRailing r rho) = acc_type r.
Proof. unfold shrinkRailing. by destruct (Qlt_le_dec _ _). Qed.

(** Either excess was absorbed by whole removals only (all railings of a
    suffix [post] are gone), or one railing [r] was shrunk and the railings
    after it are gone. *)
Lemma absorbExcess_shape (accs : list Accessory) excess :
  0 < excess ->
  (exists pre post,
      accs = pre ++ post /\
      (absorbExcess accs excess).1 = pre ++ filter notRailing post /\
      (absorbExcess accs excess).2 == excess - railingTotal post /\
      0 <= (absorbExcess accs excess).2 /\
      (0 < (absorbExcess accs excess).2 -> pre = []))
  \/
  (exists pre r post rho,
      accs = pre ++ r :: post /\
      isType railings r /\
      (absorbExcess accs excess).1 = pre ++ shrinkRailing r rho :: filter notRailing post /\
      rho == excess - railingTotal post /\
      0 < rho /\ rho < consumedLength r /\
      (absorbExcess accs excess).2 = 0).
Proof.
  intros Hpos. induction accs as [|a newer IH]; simpl.
  - left. exists [], []. simpl. split_and!; try done; lra.
  - destruct (absorbExcess newer excess) as [newer' rem] eqn:Heq. simpl in IH.
    destruct IH as [(pre & post & -> & -> & Hrem & Hge & Hpre)
                   |(pre & r & post & rho & -> & Hr & -> & Hrho & H0 & Hlt & ->)].
    + destruct (decide (isType railings a)) as [Ha|Ha].
      * destruct (Qlt_le_dec 0 rem) as [Hr|Hr].
        -- rewrite (Hpre Hr) in *. simpl in *.
           destruct (Qlt_le_dec rem (consumedLength a)) as [Hc|Hc]; simpl.
           ++ right. exists [], a, post, rem. simpl. split_and!; done.
           ++ left. exists [], (a :: post). simpl.
              rewrite filter_cons_False by (intros Hn; by apply Hn).
              destruct (decide (isType railings a)); [|done].
              split_and!; try done; lra.
        -- left. exists (a :: pre), post. simpl. split_and!; try done. lra.
      * destruct (Qlt_le_dec 0 rem) as [Hr|Hr].
        -- rewrite (Hpre Hr) in *. simpl in *. left. exists [], (a :: post). simpl.
           rewrite filter_cons_True by done.
           destruct (decide (isType railings a)); [done|].
           split_and!; try done. lra.
        -- left. exists (a :: pre), post. simpl. split_and!; try done. lra.
    + right. exists (a :: pre), r, post, rho. simpl.
      destruct (decide (isType railings a)) as [Ha|Ha];
        [destruct (Qlt_le_dec 0 0) as [Hz|Hz]; [lra|]|]; simpl; split_and!; done.
Qed.

(** The resolver leaves every accessory that is not a railing in place. *)
Lemma absorbExcess_notRailing_frame (accs : list Accessory) excess :
  filter notRailing (absorbExcess accs excess).1 = filter notRailing accs.
Proof.
  induction accs as [|a newer IH]; simpl; [reflexivity|].
  destruct (absorbExcess newer excess) as [newer' rem]. simpl in IH.
  rewrite (filter_cons _ a newer).
  destruct (decide (isType railings a)) as [Ha|Ha].
  - destruct (decide (notRailing a)) as [Hn|_]; [by destruct Hn|].
    destruct (Qlt_le_dec 0 rem); [destruct (Qlt_le_dec rem _)|]; simpl; try done.
    + rewrite filter_cons_False; [done|].
      unfold notRailing. rewrite shrinkRailing_type. by intros Hn; apply Hn.
    + rewrite filter_cons_False; [done|]. by intros Hn; apply Hn.
  - simpl. rewrite filter_cons_True by done.
    destruct (decide (notRailing a)); [by rewrite IH|done].
Qed.

(** The survivors keep their identifiers and their relative order. *)
Lemma absorbExcess_ids_sublist (accs : list Accessory) excess :
  acc_id <$> (absorbExcess accs excess).1 `sublist_of` acc_id <$> accs.
Proof.
  induction accs as [|a newer IH]; simpl; [done|].
  destruct (absorbExcess newer excess) as [newer' rem]. simpl in IH.
  destruct (decide (isType railings a)) as [Ha|Ha].
  - destruct (Qlt_le_dec 0 rem); [destruct (Qlt_le_dec rem _)|]; simpl.
    + rewrite shrinkRailing_id. by apply sublist_skip.
    + by apply sublist_cons.
    + by apply sublist_skip.
  - by apply sublist_skip.
Qed.

Lemma autoFit_uniqueIds config :
  uniqueIds (cfg_accessories config) -> uniqueIds (autoFit config).
Proof.
  unfold uniqueIds, autoFit. intros Hnd.
  destruct (Qlt_le_dec _ _); [|done].
  eapply sublist_NoDup; [exact Hnd|]. apply absorbExcess_ids_sublist.
Qed.

Lemma autoFit_notRailing_frame config :
  filter notRailing (autoFit config) = filter notRailing (cfg_accessories config).
Proof.
  unfold autoFit. destruct (Qlt_le_dec _ _); [|done].
  apply absorbExcess_notRailing_frame.
Qed.

End Shape.

(* ================================================================== *)
(** ** Lemmas: arithmetic of shrinking one railing                     *)
(* ================================================================== *)

Section Arithmetic.
Import Panel Resolver.

Lemma inject_Z_ge_1 z : (1 <= z)%Z -> 1 <= inject_Z z.
Proof. intros H. rewrite Zle_Qle in H. exact H. Qed.

Lemma orElse_nonzero v d : ~ v == 0 -> orElse (Some v) d = v.
Proof. intros H. unfold orElse. by destruct (Qeq_dec v 0). Qed.

Lemma floor_times_le (z : Z) (n : Q) :
  (1 <= z)%Z -> inject_Z z * inject_Z (Qfloor (n / inject_Z z)) <= n.
Proof.
  intros Hz%inject_Z_ge_1.
  pose proof (Qfloor_le (n / inject_Z z)) as Hf.
  assert (inject_Z z * (n / inject_Z z) == n) as Hm by (apply Qmult_div_r; lra).
  nra.
Qed.

Lemma floor_ge_1 (x : Q) : 1 <= x -> (1 <= Qfloor x)%Z.
Proof. intros H%Qfloor_resp_le. exact H. Qed.

Lemma floor_lt_1 (x : Q) : (Qfloor x < 1)%Z -> x < 1.
Proof.
  intros H. pose proof (Qlt_floor x) as Hx.
  assert (inject_Z (Qfloor x + 1) <= 1) as Hle.
  { change 1 with (inject_Z 1). rewrite <- Zle_Qle. lia. }
  lra.
Qed.

Lemma consumedLength_railingOk r :
  railingOk r -> isType railings r ->
  exists l, acc_length r = Some l /\ 1 <= l /\
            consumedLength r = inject_Z (acc_quantity r) * l /\
            orElse (acc_length r) 0 = l.
Proof.
  intros Hok Hr. destruct (Hok Hr) as (_ & l & Hl & Hge).
  exists l. unfold consumedLength. rewrite Hl, orElse_nonzero by lra. done.
Qed.

Lemma consumedLength_whole a (f : Z) :
  (1 <= f)%Z -> acc_length a = Some (inject_Z f) ->
  consumedLength a = inject_Z (acc_quantity a) * inject_Z f.
Proof.
  intros Hf%inject_Z_ge_1 Hl. unfold consumedLength.
  rewrite Hl, orElse_nonzero by lra. reflexivity.
Qed.

(** A shrunk railing is well-formed again. *)
Lemma shrinkRailing_ok r rho : railingOk r -> railingOk (shrinkRailing r rho).
Proof.
  intros Hok. unfold railingOk, isType. rewrite shrinkRailing_type. intros Hr.
  destruct (Hok Hr) as (Hq & _).
  unfold shrinkRailing. destruct (Qlt_le_dec _ _) as [Hlt|Hge]; cbn [acc_quantity acc_length].
  - split; [lia|]. eexists. split; [reflexivity|]. apply inject_Z_ge_1. lia.
  - split; [done|]. eexists. split; [reflexivity|].
    by apply inject_Z_ge_1, floor_ge_1.
Qed.

(** Shrinking by [rho] leaves at most [consumedLength r - rho], unless less
    than 1 m is left, where the 1 m floor makes the railing 1 x 1 m. *)
Lemma shrinkRailing_bound r rho :
  railingOk r -> isType railings r -> 0 < rho -> rho < consumedLength r ->
  consumedLength (shrinkRailing r rho) <= consumedLength r - rho
  \/ (consumedLength r - rho < 1 /\
      acc_quantity (shrinkRailing r rho) = 1%Z /\
      acc_length (shrinkRailing r rho) = Some (inject_Z 1)).
Proof.
  intros Hok Hr Hrho Hlt.
  destruct (Hok Hr) as (Hq & _).
  destruct (consumedLength_railingOk r Hok Hr) as (l & Hl & Hl1 & Hc & Hor).
  unfold shrinkRailing. rewrite Hor.
  set (n := consumedLength r - rho) in *.
  assert (0 < n) as Hn by (unfold n; lra).
  destruct (Qlt_le_dec (n / inject_Z (acc_quantity r)) 1) as [Hsmall|Hbig].
  - destruct (Z.max_spec 1 (Qfloor (n / l))) as [[Hk ->]|[Hk ->]].
    + (* the quantity drops to floor(n / l) >= 2 *)
      left.
      set (k := Qfloor (n / l)) in *.
      assert (1 <= inject_Z k) as Hk1 by (apply inject_Z_ge_1; lia).
      assert (inject_Z k * l <= n) as Hkl.
      { pose proof (Qfloor_le (n / l)) as Hf. fold k in Hf.
        assert (l * (n / l) == n) as Hm by (apply Qmult_div_r; lra). nra. }
      assert (1 <= n / inject_Z k) as Hdiv.
      { apply Qle_shift_div_l; [lra|]. nra. }
      apply floor_ge_1 in Hdiv.
      rewrite Z.max_r by lia.
      erewrite consumedLength_whole; [|exact Hdiv|reflexivity]. cbn [acc_quantity].
      apply floor_times_le. lia.
    + (* a single unit is left *)
      destruct (Z_lt_le_dec (Qfloor (n / inject_Z 1)) 1) as [Hf|Hf].
      * right. cbn [acc_quantity acc_length]. rewrite Z.max_l by lia. split_and!; try done.
        apply floor_lt_1 in Hf.
        assert (n / inject_Z 1 == n) as Hd by (change (inject_Z 1) with 1; field).
        lra.
      * left. rewrite Z.max_r by lia.
        erewrite consumedLength_whole; [|exact Hf|reflexivity]. cbn [acc_quantity].
        apply floor_times_le. lia.
  - left. pose proof (floor_ge_1 _ Hbig) as Hf.
    erewrite consumedLength_whole; [|exact Hf|reflexivity]. cbn [acc_quantity].
    by apply floor_times_le.
Qed.

End Arithmetic.

(* ================================================================== *)
(** ** Lemmas: the railing total around a shrunk railing               *)
(* ================================================================== *)

Section Outcome.
Import Panel Resolver.

Lemma railingTotal_shrunk pre r' (post : list Accessory) :
  isType railings r' ->
  railingTotal (pre ++ r' :: filter notRailing post)
  == railingTotal pre + consumedLength r'.
Proof.
  intros Hr. rewrite railingTotal_app. simpl.
  destruct (decide (isType railings r')); [|done].
  rewrite railingTotal_filter_notRailing. lra.
Qed.

End Outcome.

(* ================================================================== *)
(** ** Theorems: the auto-fit resolver                                 *)
(* ================================================================== *)

Section ResolverTheorems.
Import Panel Resolver Examples.

Lemma reducedRailing_ok r rho : railingOk r -> railingOk (reducedRailing r rho).
Proof.
  intros Hok. unfold railingOk, isType, reducedRailing.
  destruct (Qlt_le_dec _ _) as [Hlt|Hge]; cbn [acc_quantity acc_length acc_type]; intros Hr.
  - split; [lia|]. eexists. split; [reflexivity|]. apply inject_Z_ge_1. lia.
  - destruct (Hok Hr) as (Hq & _). split; [done|]. eexists. split; [reflexivity|].
    by apply inject_Z_ge_1, floor_ge_1.
Qed.

Lemma reduceLoop_ok pending : forall adjusted r,
  Forall railingOk pending -> Forall railingOk adjusted ->
  Forall railingOk (reduceLoop pending adjusted r).
Proof.
  induction pending as [|railing pending IH]; intros adjusted r Hp Ha; simpl; [done|].
  apply Forall_cons in Hp as [Hr Hp].
  destruct (Qlt_le_dec 0 r); [|done].
  destruct (list_find _ adjusted) as [[idx found]|]; [|by apply IH].
  destruct (Qlt_le_dec r _).
  - apply IH; [done|]. apply Forall_insert; [done|]. by apply reducedRailing_ok.
  - apply IH; [done|]. by apply Forall_delete.
Qed.

(** C9. When every railing of the configuration has quantity >= 1 and
    per-unit length >= 1, so has every railing in the list
    [autoAdjustRailingsForPerimeter] returns: no railing with a quantity or a
    length below 1 (zero and negative included) is produced. *)
Theorem autoAdjust_keeps_railings_ok (config : MezzanineConfig) :
  Forall railingOk (cfg_accessories config) ->
  Forall railingOk (autoAdjustRailingsForPerimeter config).
Proof.
  intros Hok. unfold autoAdjustRailingsForPerimeter.
  destruct (Qlt_le_dec _ _); [|done].
  apply reduceLoop_ok; [|done].
  apply Forall_reverse, Forall_forall. intros a Ha.
  apply list_elem_of_filter in Ha as [_ Ha]. rewrite Forall_forall in Hok. by apply Hok.
Qed.

Lemma autoAdjust_keeps_railings_ok_witness :
  Forall railingOk (cfg_accessories (platform [railing "railings-1" 6 5; railing "railings-2" 4 3])) /\
  Forall railingOk
    (autoAdjustRailingsForPerimeter
       (platform [railing "railings-1" 6 5; railing "railings-2" 4 3])).
Proof.
  assert (Forall railingOk
            (cfg_accessories (platform [railing "railings-1" 6 5; railing "railings-2" 4 3])))
    as H.
  { concrete_railings_ok. }
  split; [exact H|].
  apply (autoAdjust_keeps_railings_ok
           (platform [railing "railings-1" 6 5; railing "railings-2" 4 3])).
  exact H.
Defined.

(** C10. On unique identifiers the resolver touches railings only: the
    accessories that are not railings come out as they went in (same records,
    same order); the identifiers of the output are a subsequence of those of
    the input, so survivors keep their relative order; and the output is the
    input with all railings of a suffix [post] removed, except that the first
    entry of that suffix, if it is a railing, may stay as one shrunk railing
    [r'] -- every railing before it is unchanged, every railing after it is
    removed whole. *)
Theorem autoAdjust_frame (config : MezzanineConfig) :
  uniqueIds (cfg_accessories config) ->
  filter notRailing (autoAdjustRailingsForPerimeter config)
    = filter notRailing (cfg_accessories config)
  /\ acc_id <$> autoAdjustRailingsForPerimeter config
       `sublist_of` acc_id <$> cfg_accessories config
  /\ exists pre post,
       cfg_accessories config = pre ++ post /\
       (autoAdjustRailingsForPerimeter config = pre ++ filter notRailing post
        \/ exists r r' post',
             post = r :: post' /\ isType railings r /\ isType railings r' /\
             acc_id r' = acc_id r /\
             autoAdjustRailingsForPerimeter config
               = pre ++ r' :: filter notRailing post').
Proof.
  intros Hnd. rewrite (autoAdjust_autoFit config Hnd). split_and!.
  - apply autoFit_notRailing_frame.
  - unfold autoFit. destruct (Qlt_le_dec _ _); [|done].
    apply absorbExcess_ids_sublist.
  - unfold autoFit. destruct (Qlt_le_dec _ _) as [Hex|Hfit].
    + destruct (absorbExcess_shape (cfg_accessories config)
                  (calculateTotalRailingLength (cfg_accessories config)
                   - calculateAvailablePerimeter config)) as
        [(pre & post & Hacc & Hout & _)
        |(pre & r & post & rho & Hacc & Hr & Hout & _)]; [lra| |].
      * exists pre, post. split; [done|]. by left.
      * exists pre, (r :: post). split; [done|]. right.
        exists r, (shrinkRailing r rho), post. split_and!; try done.
        -- unfold isType. by rewrite shrinkRailing_type.
        -- apply shrinkRailing_id.
    + exists (cfg_accessories config), []. rewrite app_nil_r. split; [done|].
      left. by rewrite filter_nil, app_nil_r.
Qed.

Lemma autoAdjust_frame_witness :
  uniqueIds (cfg_accessories
    (platform [railing "railings-1" 1 20; stair "stairs-2" 2 "Straight 1m";
               railing "railings-3" 1 10; gate "palletGate-4" 1 W2500mm])) /\
  filter notRailing
    (autoAdjustRailingsForPerimeter
       (platform [railing "railings-1" 1 20; stair "stairs-2" 2 "Straight 1m";
                  railing "railings-3" 1 10; gate "palletGate-4" 1 W2500mm]))
  = [stair "stairs-2" 2 "Straight 1m"; gate "palletGate-4" 1 W2500mm].
Proof.
  assert (uniqueIds (cfg_accessories
    (platform [railing "railings-1" 1 20; stair "stairs-2" 2 "Straight 1m";
               railing "railings-3" 1 10; gate "palletGate-4" 1 W2500mm]))) as Hnd.
  { concrete_unique_ids. }
  split; [exact Hnd|].
  exact (proj1 (autoAdjust_frame
    (platform [railing "railings-1" 1 20; stair "stairs-2" 2 "Straight 1m";
               railing "railings-3" 1 10; gate "palletGate-4" 1 W2500mm]) Hnd)).
Defined.

End ResolverTheorems.

(* ================================================================== *)
(** ** Theorems: rejected mutations                                    *)
(* ================================================================== *)

Section Rejections.
Import Panel Examples.



(** C6. With a corner (Vinkel) stair already in the configuration, turning
    another stair into a Vinkel stair is rejected: [updateAccessory] raises
    the "only one Vinkel" alert and leaves the configuration as it was; the
    add handler never creates a Vinkel stair; and the quantity buttons of a
    Vinkel stair are disabled, so no quantity update reaches it and the
    configuration stays as it was. *)
Theorem corner_stair_guard (config : MezzanineConfig) :
  (forall (id : string) (updates : AccessoryUpdates) (i : nat)
          (accessory : Accessory) (st : string) (other : Accessory),
      list_find (fun a => acc_id a = id) (cfg_accessories config)
        = Some (i, accessory) ->
      isType stairs accessory ->
      upd_stairType updates = Some st ->
      includes st "Vinkel" = true ->
      other ∈ cfg_accessories config ->
      isVinkelStair other = true ->
      acc_id other <> id ->
      updateAccessory config id updates = mkEffect (Some OnlyOneVinkelAllowed) None
      /\ configAfter config (updateAccessory config id updates) = config)
  /\ (forall (type : AccessoryType) (now : string),
        isVinkelStair (newAccessory type now) = false)
  /\ (forall accessory : Accessory,
        isVinkelStair accessory = true ->
        clickPlus config accessory = mkEffect None None /\
        clickMinus config accessory = mkEffect None None /\
        configAfter config (clickPlus config accessory) = config /\
        configAfter config (clickMinus config accessory) = config).
Proof.
  split_and!.
  - intros id updates i accessory st other Hfind Hs Hst Hinc Hin Hv Hid.
    assert (updateAccessory config id updates
            = mkEffect (Some OnlyOneVinkelAllowed) None) as Heq.
    { unfold updateAccessory. rewrite Hfind.
      assert (vinkelRejected config accessory id updates = true) as ->; [|done].
      unfold vinkelRejected, truthyStairType. rewrite Hst.
      destruct (decide (st = ""%string)) as [->|_]; [discriminate Hinc|].
      rewrite bool_decide_eq_true_2 by done. rewrite Hinc. simpl.
      apply bool_decide_eq_true_2.
      assert (other ∈ filter (fun a => isVinkelStair a = true /\ acc_id a <> id)
                             (cfg_accessories config)) as Hmem
        by by apply list_elem_of_filter.
      destruct (filter _ (cfg_accessories config)); [by apply elem_of_nil in Hmem|].
      simpl. lia. }
    split; [exact Heq|]. by rewrite Heq.
  - intros [] now; reflexivity.
  - intros accessory Hv.
    assert (quantityButtonsDisabled accessory = true) as Hdis.
    { unfold isVinkelStair in Hv. apply andb_prop in Hv as [Ht Hinc].
      apply bool_decide_eq_true in Ht. unfold quantityButtonsDisabled.
      by rewrite Ht. }
    unfold clickPlus, clickMinus. rewrite Hdis. done.
Qed.

Lemma corner_stair_guard_witness :
  configAfter
    (platform [stair "stairs-1" 1 "Vinkel 1m"; stair "stairs-2" 1 "Straight 1m"])
    (updateAccessory
       (platform [stair "stairs-1" 1 "Vinkel 1m"; stair "stairs-2" 1 "Straight 1m"])
       "stairs-2" (mkUpdates None None None (Some "Vinkel 1.2m"%string) None None))
  = platform [stair "stairs-1" 1 "Vinkel 1m"; stair "stairs-2" 1 "Straight 1m"]
  /\ clickPlus
       (platform [stair "stairs-1" 1 "Vinkel 1m"; stair "stairs-2" 1 "Straight 1m"])
       (stair "stairs-1" 1 "Vinkel 1m")
     = mkEffect None None.
Proof.
  split.
  - refine (proj2 (proj1 (corner_stair_guard
      (platform [stair "stairs-1" 1 "Vinkel 1m"; stair "stairs-2" 1 "Straight 1m"]))
      "stairs-2" (mkUpdates None None None (Some "Vinkel 1.2m"%string) None None)
      1%nat (stair "stairs-2" 1 "Straight 1m") "Vinkel 1.2m"%string
      (stair "stairs-1" 1 "Vinkel 1m") _ _ _ _ _ _ _)).
    + reflexivity.
    + reflexivity.
    + reflexivity.
    + reflexivity.
    + apply list_elem_of_here.
    + reflexivity.
    + discriminate.
  - refine (proj1 (proj2 (proj2 (corner_stair_guard
      (platform [stair "stairs-1" 1 "Vinkel 1m"; stair "stairs-2" 1 "Straight 1m"])))
      (stair "stairs-1" 1 "Vinkel 1m") _)).
    reflexivity.
Defined.

End Rejections.

(* ================================================================== *)
(** ** Theorems: available perimeter and floor area                    *)
(* ================================================================== *)

Section Occupancy.
Import Panel Examples.

Lemma fold_left_stairSpaceStep (l : list Accessory) (acc : Q) :
  fold_left stairSpaceStep l acc == acc + fold_left stairSpaceStep l 0.
Proof.
  revert acc. induction l as [|a l IH]; intros acc; simpl.
  - lra.
  - rewrite (IH (stairSpaceStep acc a)), (IH (stairSpaceStep 0 a)).
    unfold stairSpaceStep. destruct (optIncludes _ _); lra.
Qed.

Lemma isVinkelStair_stairs a :
  isType stairs a -> isVinkelStair a = optIncludes (acc_stairType a) "Vinkel".
Proof. intros Hs. unfold isVinkelStair. by rewrite bool_decide_eq_true_2. Qed.

Lemma isVinkelStair_other a : ~ isType stairs a -> isVinkelStair a = false.
Proof. intros Hs. unfold isVinkelStair. by rewrite bool_decide_eq_false_2. Qed.

(** 1 m per stair unit, and 1.4 m more for every Vinkel stair. *)
Lemma calculateStairsSpace_sum (accs : list Accessory) :
  calculateStairsSpace accs ==
  inject_Z (stairsQuantity accs) + 1.4 * inject_Z (Z.of_nat (cornerStairCount accs)).
Proof.
  unfold calculateStairsSpace, cornerStairCount.
  induction accs as [|a accs IH].
  - reflexivity.
  - rewrite (filter_cons (isType stairs)), (filter_cons (fun a => isVinkelStair a = true)).
    cbn [stairsQuantity].
    destruct (decide (isType stairs a)) as [Hs|Hs].
    + rewrite (isVinkelStair_stairs a Hs). cbn [fold_left].
      rewrite fold_left_stairSpaceStep, IH, inject_Z_plus. unfold stairSpaceStep.
      destruct (optIncludes (acc_stairType a) "Vinkel") eqn:Hv.
      * destruct (decide (true = true)); [|done]. cbn [length].
        rewrite Nat2Z.inj_succ, <- Z.add_1_r, inject_Z_plus.
        unfold REPOS_DEPTH. change (inject_Z 1) with 1. lra.
      * destruct (decide (false = true)); [done|]. lra.
    + rewrite (isVinkelStair_other a Hs).
      destruct (decide (false = true)); [done|].
      rewrite IH, inject_Z_plus. change (inject_Z 0) with 0. lra.
Qed.

Lemma existsb_isVinkelStair_count (accs : list Accessory) :
  (0 < cornerStairCount accs)%nat -> existsb isVinkelStair accs = true.
Proof.
  unfold cornerStairCount. induction accs as [|a accs IH]; simpl; [lia|].
  rewrite filter_cons. destruct (isVinkelStair a) eqn:Hv; [done|].
  destruct (decide (false = true)); [done|]. exact IH.
Qed.

Lemma Qmax_0_proper x y : x == y -> Qmax 0 x == Qmax 0 y.
Proof.
  intros Hxy.
  destruct (Q.max_spec 0 x) as [[? ->]|[? ->]], (Q.max_spec 0 y) as [[? ->]|[? ->]]; lra.
Qed.

(** C1 (as the code has it). With exactly one corner (Vinkel) stair the
    available perimeter is the extended perimeter
    [2 * (length + width) / 1000 + 5.8] minus the stairs' space (1 m per stair
    unit plus 1.4 m for the corner stair) and the pallet gates' space, floored
    at 0 and not rounded. *)
Theorem available_perimeter_with_corner_stair (config : MezzanineConfig) :
  cornerStairCount (cfg_accessories config) = 1%nat ->
  calculateAvailablePerimeter config ==
  Qmax 0 (2 * (cfg_length config / 1000 + cfg_width config / 1000) + 5.8
          - (inject_Z (stairsQuantity (cfg_accessories config)) + 1.4)
          - calculatePalletGatesSpace (cfg_accessories config)).
Proof.
  intros Hone. unfold calculateAvailablePerimeter, calculatePerimeter.
  rewrite existsb_isVinkelStair_count by lia.
  apply Qmax_0_proper.
  rewrite calculateStairsSpace_sum, Hone.
  unfold REPOS_DEPTH, REPOS_LENGTH. change (inject_Z (Z.of_nat 1)) with 1. lra.
Qed.

Lemma available_perimeter_with_corner_stair_witness :
  cornerStairCount
    (cfg_accessories (platform [stair "stairs-1" 1 "Vinkel 1.2m";
                                stair "stairs-2" 2 "Straight 1m";
                                gate "palletGate-3" 1 W2500mm])) = 1%nat /\
  calculateAvailablePerimeter
    (platform [stair "stairs-1" 1 "Vinkel 1.2m"; stair "stairs-2" 2 "Straight 1m";
               gate "palletGate-3" 1 W2500mm])
  == Qmax 0 (2 * (9400 / 1000 + 4000 / 1000) + 5.8 - (inject_Z 3 + 1.4)
             - calculatePalletGatesSpace
                 [stair "stairs-1" 1 "Vinkel 1.2m"; stair "stairs-2" 2 "Straight 1m";
                  gate "palletGate-3" 1 W2500mm]).
Proof.
  split; [reflexivity|].
  apply (available_perimeter_with_corner_stair
    (platform [stair "stairs-1" 1 "Vinkel 1.2m"; stair "stairs-2" 2 "Straight 1m";
               gate "palletGate-3" 1 W2500mm])).
  reflexivity.
Defined.

(** C1 as stated fails: one Vinkel stair on the 9400 x 4000 platform leaves
    30.2 m, not [floor(26.8 + 5.8) = 32] m. *)
Lemma available_perimeter_with_corner_stair_not_floored :
  cornerStairCount (cfg_accessories (platform [stair "stairs-1" 1 "Vinkel 1.2m"])) = 1%nat /\
  calculateAvailablePerimeter (platform [stair "stairs-1" 1 "Vinkel 1.2m"]) == 30.2 /\
  inject_Z (Qfloor (2 * (9400 + 4000) / 1000 + 5.8)) == 32 /\
  ~ calculateAvailablePerimeter (platform [stair "stairs-1" 1 "Vinkel 1.2m"])
    == inject_Z (Qfloor (2 * (9400 + 4000) / 1000 + 5.8)).
Proof.
  split_and!.
  - reflexivity.
  - vm_compute. reflexivity.
  - vm_compute. reflexivity.
  - vm_compute. discriminate.
Qed.

End Occupancy.

Section Area.
Import Pricing Examples.

Lemma existsb_elem_of {A} (f : A -> bool) (l : list A) :
  existsb f l = true <-> exists a, a ∈ l /\ f a = true.
Proof.
  rewrite existsb_exists. split; intros (a & Ha & Hf); exists a;
    (split; [by apply list_elem_of_In|done]).
Qed.

(** C3. [calculateSquareMeters] returns [length * width / 1e6] when the
    accessory list holds no corner stair, and that plus 4.2 (the Repos
    area, 3.0 x 1.4) when it holds one. *)
Theorem calculateSquareMeters_area (length width : Q) (accessories : list Accessory) :
  ((forall a, a ∈ accessories -> isCornerStair a = false) ->
   calculateSquareMeters length width accessories == length * width / 1000000)
  /\ ((exists a, a ∈ accessories /\ isCornerStair a = true) ->
      calculateSquareMeters length width accessories
      == length * width / 1000000 + 4.2).
Proof.
  unfold calculateSquareMeters. split.
  - intros Hnone. destruct (existsb isCornerStair accessories) eqn:He; [|reflexivity].
    apply existsb_elem_of in He as (a & Ha & Hc). rewrite (Hnone a Ha) in Hc. done.
  - intros Hsome. apply existsb_elem_of in Hsome as ->.
    unfold REPOS_AREA, REPOS_LENGTH, REPOS_DEPTH. lra.
Qed.

Lemma calculateSquareMeters_area_witness :
  calculateSquareMeters 9400 4000 [stair "stairs-1" 1 "Corner stairs 1m"]
  == 9400 * 4000 / 1000000 + 4.2
  /\ calculateSquareMeters 9400 4000 [stair "stairs-1" 1 "Straight 1m"]
     == 9400 * 4000 / 1000000.
Proof.
  split.
  - apply (proj2 (calculateSquareMeters_area 9400 4000
                    [stair "stairs-1" 1 "Corner stairs 1m"])).
    exists (stair "stairs-1" 1 "Corner stairs 1m"). split; [apply list_elem_of_here|reflexivity].
  - apply (proj1 (calculateSquareMeters_area 9400 4000
                    [stair "stairs-1" 1 "Straight 1m"])).
    intros a Ha. apply list_elem_of_singleton in Ha as ->. reflexivity.
Defined.

(** The panel of [ConfigurationPanel.tsx] names its corner stairs
    "Vinkel ..."; [calculateSquareMeters] looks for "Corner stairs" and adds
    no Repos area for them. *)
Lemma calculateSquareMeters_vinkel_named :
  calculateSquareMeters 9400 4000 [stair "stairs-1" 1 "Vinkel 1m"]
  == 9400 * 4000 / 1000000.
Proof. vm_compute. reflexivity. Qed.

End Area.

(* ================================================================== *)
(** ** The perimeter walker on the front edge                          *)
(* ================================================================== *)

Section Walker.
Import Viewer Examples.

(** C5 (the code at a failing input). On the 9400 x 4000 platform with one
    straight stair, one 2000 mm pallet gate and one 10 m railing, the stair
    occupies X in [-0.5, 0.5] and the gate X in [-1, 1] on the front edge; the
    second railing piece the walker emits lies on the front edge and spans X
    in [-1.7, -0.5], so it overlaps the gate's range on [-1, -0.5]. *)
Theorem railing_piece_overlaps_pallet_gate :
  exists (p : Placement) (gateRange : Q * Q),
    p ∈ concat (MezzanineModel
                  (platform [stair "stairs-1" 1 "Straight 1m";
                             gate "palletGate-2" 1 W2000mm;
                             railing "railings-3" 1 10])) /\
    gateRange ∈ occupiedXRanges
                  (platform [stair "stairs-1" 1 "Straight 1m";
                             gate "palletGate-2" 1 W2000mm;
                             railing "railings-3" 1 10]) /\
    pl_edge p = front /\
    pX (pl_position p) - pl_segmentLen p / 2 == -1.7 /\
    pX (pl_position p) + pl_segmentLen p / 2 == -0.5 /\
    gateRange.1 == -1 /\ gateRange.2 == 1 /\
    gateRange.1 < pX (pl_position p) + pl_segmentLen p / 2 /\
    pX (pl_position p) - pl_segmentLen p / 2 < gateRange.2.
Proof.
  eexists. eexists. split_and!.
  - apply list_elem_of_lookup_2 with (i := 1%nat). cbv. reflexivity.
  - apply list_elem_of_lookup_2 with (i := 1%nat). cbv. reflexivity.
  - reflexivity.
  - vm_compute. reflexivity.
  - vm_compute. reflexivity.
  - vm_compute. reflexivity.
  - vm_compute. reflexivity.
  - vm_compute. reflexivity.
  - vm_compute. reflexivity.
Qed.

End Walker.

(* ================================================================== *)
(** ** Lemmas: edits by identifier                                     *)
(* ================================================================== *)

Section Invariant.
Import Panel Resolver Examples.

Lemma find_unique_split (accs : list Accessory) id i accessory :
  uniqueIds accs ->
  list_find (fun a => acc_id a = id) accs = Some (i, accessory) ->
  exists pre post,
    accs = pre ++ accessory :: post /\ acc_id accessory = id /\
    Forall (fun a => acc_id a <> id) pre /\ Forall (fun a => acc_id a <> id) post.
Proof.
  intros Hnd (Hi & Hid & Hmin)%list_find_Some.
  exists (take i accs), (drop (S i) accs).
  pose proof (take_drop_middle accs i accessory Hi) as Hsplit.
  split_and!; [done|done| |].
  - apply Forall_lookup. intros j y Hj.
    pose proof (lookup_lt_Some _ _ _ Hj) as Hlen. rewrite length_take in Hlen.
    rewrite lookup_take_lt in Hj by lia. apply (Hmin j y Hj). lia.
  - unfold uniqueIds in Hnd. rewrite <- Hsplit, fmap_app, fmap_cons in Hnd.
    apply NoDup_app in Hnd as (_ & _ & Hpost). apply NoDup_cons in Hpost as [Hnotin _].
    apply Forall_forall. intros y Hy Heq. apply Hnotin.
    apply list_elem_of_fmap. exists y. split; [congruence|done].
Qed.

Lemma fmap_update_others (l : list Accessory) id (f : Accessory -> Accessory) :
  Forall (fun a => acc_id a <> id) l ->
  (fun a => if decide (acc_id a = id) then f a else a) <$> l = l.
Proof.
  induction 1 as [|a l Ha _ IH]; [reflexivity|].
  rewrite fmap_cons, IH. by destruct (decide (acc_id a = id)).
Qed.

(** [updateAccessory] itself does not look at the stair type when the
    quantity changes; only the disabled buttons keep a Vinkel stair's
    quantity from changing. *)
Lemma updateAccessory_quantity_unguarded :
  changed (updateAccessory (platform [stair "stairs-1" 1 "Vinkel 1m"]) "stairs-1"
             (quantityUpdate 2))
  = Some (platform [stair "stairs-1" 2 "Vinkel 1m"]).
Proof. reflexivity. Qed.

End Invariant.

(* ================================================================== *)
(** ** Further properties: the occupancy calculator                    *)
(* ================================================================== *)

Section OccupancyMore.
Import Panel Examples.

Lemma existsb_isVinkelStair_none (accs : list Accessory) :
  cornerStairCount accs = 0%nat -> existsb isVinkelStair accs = false.
Proof.
  unfold cornerStairCount. induction accs as [|a accs IH]; simpl; [done|].
  rewrite filter_cons. destruct (isVinkelStair a) eqn:Hv.
  - destruct (decide (true = true)); [|done]. simpl. lia.
  - destruct (decide (false = true)); [done|]. exact IH.
Qed.

(** X1. Without a corner (Vinkel) stair the available perimeter is the
    plain rectangle's perimeter minus 1 m per stair unit and minus the pallet
    gates' space, floored at 0. *)
Theorem available_perimeter_without_corner_stair (config : MezzanineConfig) :
  cornerStairCount (cfg_accessories config) = 0%nat ->
  calculateAvailablePerimeter config ==
  Qmax 0 (2 * (cfg_length config / 1000 + cfg_width config / 1000)
          - inject_Z (stairsQuantity (cfg_accessories config))
          - calculatePalletGatesSpace (cfg_accessories config)).
Proof.
  intros Hnone. unfold calculateAvailablePerimeter, calculatePerimeter.
  rewrite existsb_isVinkelStair_none by done.
  apply Qmax_0_proper.
  rewrite calculateStairsSpace_sum, Hnone.
  change (inject_Z (Z.of_nat 0)) with 0. lra.
Qed.

Lemma available_perimeter_without_corner_stair_witness :
  cornerStairCount
    (cfg_accessories (platform [stair "stairs-1" 2 "Straight 1m";
                                gate "palletGate-2" 1 W3000mm;
                                railing "railings-3" 1 10])) = 0%nat /\
  calculateAvailablePerimeter
    (platform [stair "stairs-1" 2 "Straight 1m"; gate "palletGate-2" 1 W3000mm;
               railing "railings-3" 1 10])
  == Qmax 0 (2 * (9400 / 1000 + 4000 / 1000) - inject_Z 2
             - calculatePalletGatesSpace
                 [stair "stairs-1" 2 "Straight 1m"; gate "palletGate-2" 1 W3000mm;
                  railing "railings-3" 1 10]).
Proof.
  split; [reflexivity|].
  apply (available_perimeter_without_corner_stair
    (platform [stair "stairs-1" 2 "Straight 1m"; gate "palletGate-2" 1 W3000mm;
               railing "railings-3" 1 10])).
  reflexivity.
Defined.

(** X2. Railings never change the available perimeter: two accessory lists
    with the same stairs and pallet gates, in the same order, leave the same
    perimeter, total perimeter and occupied space, whatever railings they
    hold. *)
Theorem available_perimeter_ignores_railings
    (config : MezzanineConfig) (accs : list Accessory) :
  filter notRailing accs = filter notRailing (cfg_accessories config) ->
  calculateAvailablePerimeter (withAccessories config accs)
    = calculateAvailablePerimeter config
  /\ calculateStairsSpace accs = calculateStairsSpace (cfg_accessories config)
  /\ calculatePalletGatesSpace accs = calculatePalletGatesSpace (cfg_accessories config)
  /\ calculatePerimeter (cfg_length config) (cfg_width config) accs
     = calculatePerimeter (cfg_length config) (cfg_width config) (cfg_accessories config).
Proof.
  intros Heq. split_and!.
  - rewrite <- (withAccessories_same config) at 2.
    by apply calculateAvailablePerimeter_frame.
  - unfold calculateStairsSpace.
    by rewrite <- (filter_type_notRailing stairs accs),
               <- (filter_type_notRailing stairs (cfg_accessories config)), Heq.
  - unfold calculatePalletGatesSpace.
    by rewrite <- (filter_type_notRailing palletGate accs),
               <- (filter_type_notRailing palletGate (cfg_accessories config)), Heq.
  - unfold calculatePerimeter.
    by rewrite <- (existsb_isVinkelStair_notRailing accs),
               <- (existsb_isVinkelStair_notRailing (cfg_accessories config)), Heq.
Qed.

Lemma available_perimeter_ignores_railings_witness :
  calculateAvailablePerimeter
    (withAccessories (platform [stair "stairs-1" 1 "Vinkel 1m"; railing "railings-2" 2 5])
       [railing "railings-9" 1 3; stair "stairs-1" 1 "Vinkel 1m"])
  = calculateAvailablePerimeter
      (platform [stair "stairs-1" 1 "Vinkel 1m"; railing "railings-2" 2 5]).
Proof.
  apply (available_perimeter_ignores_railings
    (platform [stair "stairs-1" 1 "Vinkel 1m"; railing "railings-2" 2 5])
    [railing "railings-9" 1 3; stair "stairs-1" 1 "Vinkel 1m"]).
  reflexivity.
Defined.

End OccupancyMore.

(* ================================================================== *)
(** ** Further properties: the auto-fit resolver                       *)
(* ================================================================== *)

Section ResolverMore.
Import Panel Resolver Examples.

Lemma consumedLength_ge_1 r : railingOk r -> isType railings r -> 1 <= consumedLength r.
Proof.
  intros Hok Hr. destruct (Hok Hr) as (Hq%inject_Z_ge_1 & _).
  destruct (consumedLength_railingOk r Hok Hr) as (l & _ & Hl & -> & _). nra.
Qed.

Lemma railingTotal_nonneg (accs : list Accessory) :
  Forall railingOk accs -> 0 <= railingTotal accs.
Proof.
  induction 1 as [|a accs Ha _ IH]; simpl; [lra|].
  destruct (decide (isType railings a)) as [Hr|_]; [|lra].
  pose proof (consumedLength_ge_1 a Ha Hr). lra.
Qed.

Lemma autoFit_railingTotal_le (config : MezzanineConfig) :
  Forall railingOk (cfg_accessories config) ->
  railingTotal (autoFit config) <= railingTotal (cfg_accessories config).
Proof.
  intros Hok. unfold autoFit.
  destruct (Qlt_le_dec _ _) as [Hex|_]; [|lra].
  destruct (absorbExcess_shape (cfg_accessories config)
              (calculateTotalRailingLength (cfg_accessories config)
               - calculateAvailablePerimeter config)) as
    [(pre & post & Hacc & -> & _)
    |(pre & r & post & rho & Hacc & Hr & -> & _ & H0 & Hlt & _)]; [lra| |].
  - rewrite Hacc in Hok |- *. apply Forall_app in Hok as [_ Hpost].
    rewrite !railingTotal_app, railingTotal_filter_notRailing.
    pose proof (railingTotal_nonneg post Hpost). lra.
  - rewrite Hacc in Hok |- *. apply Forall_app in Hok as [_ Hpost].
    apply Forall_cons in Hpost as [Hokr Hpost].
    assert (isType railings (shrinkRailing r rho)) as Hr'
      by (unfold isType; by rewrite shrinkRailing_type).
    rewrite (railingTotal_shrunk pre _ post Hr'), railingTotal_app. simpl.
    destruct (decide (isType railings r)) as [_|]; [|done].
    pose proof (railingTotal_nonneg post Hpost).
    pose proof (consumedLength_ge_1 r Hokr Hr).
    destruct (shrinkRailing_bound r rho Hokr Hr H0 Hlt) as [Hb|(_ & Hq & Hl)].
    + lra.
    + assert (consumedLength (shrinkRailing r rho) == 1) as Hone.
      { rewrite (consumedLength_whole _ 1) by done. rewrite Hq. reflexivity. }
      lra.
Qed.

(** X3. On unique identifiers and railings of quantity and length >= 1 the
    resolver never adds railing length: the total railing length of its
    output is at most that of its input. *)
Theorem autoAdjust_never_adds_railing_length (config : MezzanineConfig) :
  uniqueIds (cfg_accessories config) ->
  Forall railingOk (cfg_accessories config) ->
  calculateTotalRailingLength (autoAdjustRailingsForPerimeter config)
  <= calculateTotalRailingLength (cfg_accessories config).
Proof.
  intros Hnd Hok. rewrite (autoAdjust_autoFit config Hnd).
  rewrite !calculateTotalRailingLength_total.
  by apply autoFit_railingTotal_le.
Qed.

Lemma autoAdjust_never_adds_railing_length_witness :
  calculateTotalRailingLength
    (autoAdjustRailingsForPerimeter
       (platform [railing "railings-1" 2 9; railing "railings-2" 3 4]))
  <= calculateTotalRailingLength
       (cfg_accessories (platform [railing "railings-1" 2 9; railing "railings-2" 3 4])).
Proof.
  apply (autoAdjust_never_adds_railing_length
    (platform [railing "railings-1" 2 9; railing "railings-2" 3 4])).
  - concrete_unique_ids.
  - concrete_railings_ok.
Defined.

Lemma reducedRailing_id r rho : acc_id (reducedRailing r rho) = acc_id r.
Proof. unfold reducedRailing. by destruct (Qlt_le_dec _ _). Qed.

Lemma reducedRailing_type r rho : acc_type (reducedRailing r rho) = acc_type r.
Proof. unfold reducedRailing. by destruct (Qlt_le_dec _ _). Qed.

(** What the loop keeps whatever the identifiers are: the array never
    grows, and each entry is an entry of the array the loop started from or a
    reduced copy of one of the railings still to visit. *)
Lemma reduceLoop_entries (P : Accessory -> Prop) pending : forall adjusted r,
  (forall railing rho, railing ∈ pending -> P (reducedRailing railing rho)) ->
  Forall P adjusted ->
  Forall P (reduceLoop pending adjusted r) /\
  (length (reduceLoop pending adjusted r) <= length adjusted)%nat.
Proof.
  induction pending as [|railing pending IH]; intros adjusted r Hp Ha; simpl; [done|].
  assert (forall railing' rho, railing' ∈ pending -> P (reducedRailing railing' rho)) as Hp'.
  { intros railing' rho Hin. apply Hp. by apply list_elem_of_further. }
  destruct (Qlt_le_dec 0 r); [|done].
  destruct (list_find _ adjusted) as [[idx found]|] eqn:Hfind; [|by apply IH].
  destruct (Qlt_le_dec r _).
  - destruct (IH (<[idx:=reducedRailing railing r]> adjusted) 0 Hp') as [H1 H2].
    + apply Forall_insert; [done|]. apply Hp. apply list_elem_of_here.
    + rewrite length_insert in H2. done.
  - destruct (IH (delete idx adjusted) (r - consumedLength railing) Hp') as [H1 H2].
    + by apply Forall_delete.
    + split; [done|].
      apply list_find_Some in Hfind as (Hidx & _).
      rewrite (length_delete adjusted idx) in H2 by by eexists. lia.
Qed.

(** X4. Whatever the configuration (identifiers may even repeat), the
    resolver never lengthens the accessory list, and each entry of its output
    is an entry of the input or a railing carrying the identifier of an input
    railing. *)
Theorem autoAdjust_never_invents_accessories (config : MezzanineConfig) :
  (length (autoAdjustRailingsForPerimeter config)
   <= length (cfg_accessories config))%nat
  /\ Forall (fun a => a ∈ cfg_accessories config \/
                      (isType railings a /\
                       exists r, r ∈ cfg_accessories config /\ isType railings r /\
                                 acc_id a = acc_id r))
            (autoAdjustRailingsForPerimeter config).
Proof.
  unfold autoAdjustRailingsForPerimeter.
  assert (Forall (fun a => a ∈ cfg_accessories config \/
                      (isType railings a /\
                       exists r, r ∈ cfg_accessories config /\ isType railings r /\
                                 acc_id a = acc_id r)) (cfg_accessories config)) as Hself.
  { apply Forall_forall. intros a Ha. by left. }
  destruct (Qlt_le_dec _ _); [|done].
  destruct (reduceLoop_entries
    (fun a => a ∈ cfg_accessories config \/
              (isType railings a /\
               exists r, r ∈ cfg_accessories config /\ isType railings r /\
                         acc_id a = acc_id r))
    (reverse (filter (isType railings) (cfg_accessories config)))
    (cfg_accessories config)
    (calculateTotalRailingLength (cfg_accessories config)
     - calculateAvailablePerimeter config)) as [H1 H2]; [|done|done].
  intros railing rho Hin. right.
  apply elem_of_reverse, list_elem_of_filter in Hin as [Hr Hin].
  split.
  - unfold isType. by rewrite reducedRailing_type.
  - exists railing. split_and!; [done|done|apply reducedRailing_id].
Qed.

End ResolverMore.

(* ================================================================== *)
(** ** Further properties: invariants of the mutations                 *)
(* ================================================================== *)

Section MutationsMore.
Import Panel Resolver Examples.

Lemma cornerStairCount_cons a (l : list Accessory) :
  cornerStairCount (a :: l)
  = ((if isVinkelStair a then 1 else 0) + cornerStairCount l)%nat.
Proof.
  unfold cornerStairCount. rewrite filter_cons.
  destruct (isVinkelStair a); by destruct (decide _).
Qed.

Lemma cornerStairCount_app (l1 l2 : list Accessory) :
  cornerStairCount (l1 ++ l2) = (cornerStairCount l1 + cornerStairCount l2)%nat.
Proof. unfold cornerStairCount. by rewrite filter_app, length_app. Qed.

Lemma cornerStairCount_delete (l : list Accessory) i :
  (cornerStairCount (delete i l) <= cornerStairCount l)%nat.
Proof.
  revert i. induction l as [|a l IH]; intros [|i]; simpl; try lia.
  - rewrite cornerStairCount_cons. lia.
  - rewrite !cornerStairCount_cons. specialize (IH i). lia.
Qed.

Lemma cornerStairCount_insert (l : list Accessory) i x :
  isVinkelStair x = false ->
  (cornerStairCount (<[i:=x]> l) <= cornerStairCount l)%nat.
Proof.
  intros Hx. revert i. induction l as [|a l IH]; intros [|i]; simpl; try lia.
  - rewrite !cornerStairCount_cons, Hx. lia.
  - rewrite !cornerStairCount_cons. specialize (IH i). lia.
Qed.

Lemma cornerStairCount_none (l : list Accessory) :
  (forall x, x ∈ l -> isVinkelStair x = false) -> cornerStairCount l = 0%nat.
Proof.
  induction l as [|a l IH]; intros H; [reflexivity|].
  rewrite cornerStairCount_cons, (H a) by apply list_elem_of_here.
  rewrite IH; [reflexivity|]. intros x Hx. apply H. by apply list_elem_of_further.
Qed.

Lemma cornerStairCount_filter (P : Accessory -> Prop) `{!forall a, Decision (P a)}
    (l : list Accessory) :
  (cornerStairCount (filter P l) <= cornerStairCount l)%nat.
Proof.
  induction l as [|a l IH]; [done|].
  rewrite filter_cons. destruct (decide (P a)); rewrite !cornerStairCount_cons; lia.
Qed.

Lemma railing_not_vinkel a : isType railings a -> isVinkelStair a = false.
Proof.
  intros Hr. apply isVinkelStair_other. unfold isType in *. congruence.
Qed.

Lemma reduceLoop_cornerStairCount pending : forall adjusted r,
  Forall (isType railings) pending ->
  (cornerStairCount (reduceLoop pending adjusted r) <= cornerStairCount adjusted)%nat.
Proof.
  induction pending as [|railing pending IH]; intros adjusted r Hp; simpl; [lia|].
  apply Forall_cons in Hp as [Hr Hp].
  destruct (Qlt_le_dec 0 r); [|lia].
  destruct (list_find _ adjusted) as [[idx found]|]; [|by apply IH].
  destruct (Qlt_le_dec r _).
  - etransitivity; [by apply IH|]. apply cornerStairCount_insert, railing_not_vinkel.
    unfold isType. by rewrite reducedRailing_type.
  - etransitivity; [by apply IH|]. apply cornerStairCount_delete.
Qed.

Lemma autoAdjust_cornerStairCount config :
  (cornerStairCount (autoAdjustRailingsForPerimeter config)
   <= cornerStairCount (cfg_accessories config))%nat.
Proof.
  unfold autoAdjustRailingsForPerimeter. destruct (Qlt_le_dec _ _); [|lia].
  apply reduceLoop_cornerStairCount, Forall_reverse, Forall_forall.
  intros a Ha. by apply list_elem_of_filter in Ha as [? _].
Qed.

(** X6. At most one corner (Vinkel) stair is an invariant of the panel's
    mutations: from a configuration with at most one, add and remove leave at
    most one, and so does every accepted update that does not change an
    accessory's type, provided identifiers are unique. *)
Theorem mutations_keep_at_most_one_corner_stair (config : MezzanineConfig) :
  (cornerStairCount (cfg_accessories config) <= 1)%nat ->
  (forall type now config',
      changed (addAccessory config type now) = Some config' ->
      (cornerStairCount (cfg_accessories config') <= 1)%nat)
  /\ (forall id config',
        changed (removeAccessory config id) = Some config' ->
        (cornerStairCount (cfg_accessories config') <= 1)%nat)
  /\ (uniqueIds (cfg_accessories config) ->
      forall id updates config',
        upd_type updates = None ->
        changed (updateAccessory config id updates) = Some config' ->
        (cornerStairCount (cfg_accessories config') <= 1)%nat).
Proof.
  intros Hone. split_and!.
  - intros type now config'.
    assert (cornerStairCount (cfg_accessories config ++ [newAccessory type now])
            = cornerStairCount (cfg_accessories config)) as Hnew.
    { rewrite cornerStairCount_app, cornerStairCount_cons.
      assert (isVinkelStair (newAccessory type now) = false) as -> by by destruct type.
      unfold cornerStairCount at 2. simpl. lia. }
    unfold addAccessory. destruct (decide (type = railings)).
    + destruct (Qlt_le_dec _ _); [done|]. intros [= <-]. simpl. lia.
    + intros [= <-]. cbn [cfg_accessories withAccessories].
      etransitivity; [apply autoAdjust_cornerStairCount|].
      cbn [cfg_accessories withAccessories]. lia.
  - intros id config' [= <-]. cbn [cfg_accessories withAccessories].
    etransitivity; [|exact Hone]. apply cornerStairCount_filter.
  - intros Hnd id updates config' Htype. unfold updateAccessory.
    destruct (list_find _ _) as [[i accessory]|] eqn:Hfind; [|done].
    destruct (find_unique_split _ _ _ _ Hnd Hfind) as (pre & post & Hacc & <- & Hpre & Hpost).
    destruct (vinkelRejected _ _ _ _) eqn:Hrej; [done|].
    assert ((fun a => if decide (acc_id a = acc_id accessory)
                      then applyUpdates a updates else a) <$> cfg_accessories config
            = pre ++ applyUpdates accessory updates :: post) as ->.
    { rewrite Hacc, fmap_app, fmap_cons, !fmap_update_others by done.
      by destruct (decide (acc_id accessory = acc_id accessory)). }
    assert (cornerStairCount (pre ++ applyUpdates accessory updates :: post) <= 1)%nat
      as Hnew.
    { rewrite Hacc, cornerStairCount_app, cornerStairCount_cons in Hone.
      rewrite cornerStairCount_app, cornerStairCount_cons.
      destruct (isVinkelStair (applyUpdates accessory updates)) eqn:Hv'; [|lia].
      apply andb_prop in Hv' as [Ht Hinc]. apply bool_decide_eq_true in Ht.
      unfold applyUpdates in Ht, Hinc. cbn [acc_type acc_stairType] in Ht, Hinc.
      rewrite Htype in Ht. cbn [default] in Ht.
      destruct (upd_stairType updates) as [st|] eqn:Hst.
      - (* the update sets a Vinkel type: no other Vinkel stair was there *)
        unfold vinkelRejected, truthyStairType in Hrej. rewrite Hst in Hrej.
        destruct (decide (st = ""%string)) as [->|_]; [discriminate Hinc|].
        rewrite (bool_decide_eq_true_2 _ Ht) in Hrej. simpl in Hinc.
        rewrite Hinc in Hrej. cbn [andb] in Hrej.
        apply bool_decide_eq_false in Hrej.
        assert (filter (fun a => isVinkelStair a = true /\ acc_id a <> acc_id accessory)
                       (cfg_accessories config) = []) as Hnil.
        { destruct (filter _ (cfg_accessories config)); [done|]. simpl in Hrej. lia. }
        assert (forall l : list Accessory,
                   Forall (fun a => acc_id a <> acc_id accessory) l ->
                   (forall x, x ∈ l -> x ∈ cfg_accessories config) ->
                   cornerStairCount l = 0%nat) as Hzero.
        { intros l Hl Hsub. apply cornerStairCount_none. intros x Hx.
          destruct (isVinkelStair x) eqn:Hvx; [|done]. exfalso.
          rewrite Forall_forall in Hl.
          eapply (filter_nil_not_elem_of _ _ x Hnil); [|by apply Hsub].
          split; [done|]. by apply Hl. }
        assert (cornerStairCount pre = 0%nat) as ->.
        { apply Hzero; [done|]. intros x Hx. rewrite Hacc. apply elem_of_app. by left. }
        assert (cornerStairCount post = 0%nat) as ->.
        { apply Hzero; [done|]. intros x Hx. rewrite Hacc. apply elem_of_app. right.
          by apply list_elem_of_further. }
        lia.
      - (* the stair type is untouched: the count is what it was *)
        assert (isVinkelStair accessory = true) as Hv.
        { unfold isVinkelStair. by rewrite (bool_decide_eq_true_2 _ Ht), Hinc. }
        rewrite Hv in Hone. lia. }
    destruct (_ && _); [done|].
    destruct (_ && _); intros [= <-]; cbn [cfg_accessories withAccessories].
    + etransitivity; [apply autoAdjust_cornerStairCount|]. exact Hnew.
    + exact Hnew.
Qed.

Lemma mutations_keep_at_most_one_corner_stair_witness :
  exists config',
    changed (updateAccessory
               (platform [stair "stairs-1" 2 "Straight 1m"; railing "railings-2" 1 10])
               "stairs-1" (mkUpdates None None None (Some "Vinkel 1m"%string) None None))
    = Some config' /\
    (cornerStairCount (cfg_accessories config') <= 1)%nat.
Proof.
  eexists. split; [reflexivity|].
  refine (proj2 (proj2 (mutations_keep_at_most_one_corner_stair
    (platform [stair "stairs-1" 2 "Straight 1m"; railing "railings-2" 1 10]) _)) _
    "stairs-1"%string (mkUpdates None None None (Some "Vinkel 1m"%string) None None)
    _ _ _).
  - vm_compute. lia.
  - concrete_unique_ids.
  - reflexivity.
  - reflexivity.
Defined.

Lemma fmap_update_ids (l : list Accessory) id updates :
  upd_id updates = None ->
  acc_id <$> ((fun a => if decide (acc_id a = id) then applyUpdates a updates else a) <$> l)
  = acc_id <$> l.
Proof.
  intros Hid. rewrite <- list_fmap_compose. apply list_fmap_ext. intros i a _. simpl.
  destruct (decide (acc_id a = id)); [|done]. unfold applyUpdates. simpl. by rewrite Hid.
Qed.

Lemma autoAdjust_uniqueIds config :
  uniqueIds (cfg_accessories config) -> uniqueIds (autoAdjustRailingsForPerimeter config).
Proof.
  intros Hnd. rewrite (autoAdjust_autoFit config Hnd). by apply autoFit_uniqueIds.
Qed.

(** X7. Unique identifiers are an invariant of the panel's mutations: adding
    under an identifier not yet in use, removing, and every accepted update
    that leaves the identifier alone keep the identifiers pairwise distinct. *)
Theorem mutations_keep_unique_ids (config : MezzanineConfig) :
  uniqueIds (cfg_accessories config) ->
  (forall type now config',
      acc_id (newAccessory type now) ∉ acc_id <$> cfg_accessories config ->
      changed (addAccessory config type now) = Some config' ->
      uniqueIds (cfg_accessories config'))
  /\ (forall id config',
        changed (removeAccessory config id) = Some config' ->
        uniqueIds (cfg_accessories config'))
  /\ (forall id updates config',
        upd_id updates = None ->
        changed (updateAccessory config id updates) = Some config' ->
        uniqueIds (cfg_accessories config')).
Proof.
  intros Hnd. split_and!.
  - intros type now config' Hfresh.
    assert (uniqueIds (cfg_accessories config ++ [newAccessory type now])) as Hnew.
    { unfold uniqueIds. rewrite fmap_app. apply NoDup_app. split_and!; [done| |].
      - intros x Hx Hin. apply list_elem_of_singleton in Hin. by subst x.
      - apply NoDup_singleton. }
    unfold addAccessory. destruct (decide (type = railings)).
    + destruct (Qlt_le_dec _ _); [done|]. by intros [= <-].
    + intros [= <-]. cbn [cfg_accessories withAccessories].
      by apply autoAdjust_uniqueIds.
  - intros id config' [= <-]. cbn [cfg_accessories withAccessories].
    unfold uniqueIds in *. eapply sublist_NoDup; [exact Hnd|].
    apply fmap_sublist, sublist_filter.
  - intros id updates config' Hid. unfold updateAccessory.
    destruct (list_find _ _) as [[i accessory]|]; [|done].
    destruct (vinkelRejected _ _ _ _); [done|].
    destruct (_ && _); [done|].
    assert (uniqueIds ((fun a => if decide (acc_id a = id)
                                 then applyUpdates a updates else a)
                       <$> cfg_accessories config)) as Hnew.
    { unfold uniqueIds. by rewrite fmap_update_ids. }
    destruct (_ && _); intros [= <-]; cbn [cfg_accessories withAccessories]; [|done].
    by apply autoAdjust_uniqueIds.
Qed.

Lemma mutations_keep_unique_ids_witness :
  exists config',
    changed (addAccessory
               (platform [railing "railings-1" 1 25; railing "railings-2" 1 10])
               palletGate "1700000000000") = Some config' /\
    uniqueIds (cfg_accessories config').
Proof.
  eexists. split; [reflexivity|].
  refine (proj1 (mutations_keep_unique_ids
    (platform [railing "railings-1" 1 25; railing "railings-2" 1 10]) _)
    palletGate "1700000000000"%string _ _ _).
  - concrete_unique_ids.
  - apply (bool_decide_unpack _). vm_compute. exact I.
  - reflexivity.
Defined.

Lemma withAccessories_twice config (l1 l2 : list Accessory) :
  withAccessories (withAccessories config l1) l2 = withAccessories config l2.
Proof. reflexivity. Qed.

Lemma filter_other_ids (l : list Accessory) id :
  id ∉ acc_id <$> l -> filter (fun a => acc_id a <> id) l = l.
Proof.
  induction l as [|a l IH]; intros Hnotin; [reflexivity|].
  rewrite fmap_cons in Hnotin. apply not_elem_of_cons in Hnotin as [Hne Hnotin].
  rewrite filter_cons_True by congruence. by rewrite IH.
Qed.

(** X8. Removing undoes an accepted railing add: when a railing is added
    under an identifier not yet in use, removing that identifier gives back
    the configuration as it was before the add. *)
Theorem remove_undoes_railing_add
    (config config1 : MezzanineConfig) (now : string) :
  acc_id (newAccessory railings now) ∉ acc_id <$> cfg_accessories config ->
  changed (addAccessory config railings now) = Some config1 ->
  changed (removeAccessory config1 (acc_id (newAccessory railings now))) = Some config.
Proof.
  intros Hfresh. unfold addAccessory.
  destruct (decide (railings = railings)); [|done].
  destruct (Qlt_le_dec _ _); [done|]. intros [= <-].
  unfold removeAccessory. cbn [changed cfg_accessories withAccessories].
  rewrite withAccessories_twice, filter_app, filter_other_ids by done.
  rewrite filter_cons_False by (intros H; by apply H).
  by rewrite filter_nil, app_nil_r, withAccessories_same.
Qed.

Lemma remove_undoes_railing_add_witness :
  exists config1,
    changed (addAccessory (platform [stair "stairs-1" 1 "Straight 1m"]) railings "17")
      = Some config1 /\
    changed (removeAccessory config1 (acc_id (newAccessory railings "17")))
      = Some (platform [stair "stairs-1" 1 "Straight 1m"]).
Proof.
  eexists. split; [reflexivity|].
  apply (remove_undoes_railing_add (platform [stair "stairs-1" 1 "Straight 1m"]) _ "17").
  - apply (bool_decide_unpack _). vm_compute. exact I.
  - reflexivity.
Defined.

(** X9. An identifier that no accessory carries: [updateAccessory] returns
    at once, without alert and without calling [onConfigChange], and
    [removeAccessory] hands back the configuration unchanged. *)
Theorem unknown_id_is_ignored
    (config : MezzanineConfig) (id : string) (updates : AccessoryUpdates) :
  id ∉ acc_id <$> cfg_accessories config ->
  updateAccessory config id updates = mkEffect None None
  /\ removeAccessory config id = mkEffect None (Some config).
Proof.
  intros Hnotin. split.
  - unfold updateAccessory.
    destruct (list_find _ _) as [[i a]|] eqn:Hfind; [|done]. exfalso.
    apply list_find_Some in Hfind as (Hi & Ha & _). apply Hnotin.
    apply list_elem_of_fmap. exists a. split; [done|]. by eapply list_elem_of_lookup_2.
  - unfold removeAccessory. by rewrite filter_other_ids, withAccessories_same.
Qed.

Lemma unknown_id_is_ignored_witness :
  updateAccessory (platform [railing "railings-1" 1 10]) "railings-7" (quantityUpdate 3)
  = mkEffect None None.
Proof.
  apply (unknown_id_is_ignored (platform [railing "railings-1" 1 10]) "railings-7"
           (quantityUpdate 3)).
  apply (bool_decide_unpack _). vm_compute. exact I.
Defined.

(** X10. Adding and removing keep the railings in range: when every
    railing has quantity and per-unit length >= 1, so has every railing after
    an add (a new railing is one unit of 10 m; a new stair or gate may shrink
    railings, never below 1) and after a remove. *)
Theorem add_remove_keep_railings_ok (config : MezzanineConfig) :
  Forall railingOk (cfg_accessories config) ->
  (forall type now config',
      changed (addAccessory config type now) = Some config' ->
      Forall railingOk (cfg_accessories config'))
  /\ (forall id config',
        changed (removeAccessory config id) = Some config' ->
        Forall railingOk (cfg_accessories config')).
Proof.
  intros Hok. split.
  - intros type now config'.
    assert (Forall railingOk (cfg_accessories config ++ [newAccessory type now])) as Hnew.
    { apply Forall_app. split; [done|]. apply Forall_singleton. intros Hr.
      unfold isType in Hr. simpl in Hr. subst type. simpl.
      split; [lia|]. eexists. split; [reflexivity|]. lra. }
    unfold addAccessory. destruct (decide (type = railings)).
    + destruct (Qlt_le_dec _ _); [done|]. by intros [= <-].
    + intros [= <-]. cbn [cfg_accessories withAccessories].
      unfold autoAdjustRailingsForPerimeter. cbn [cfg_accessories withAccessories].
      destruct (Qlt_le_dec _ _); [|done].
      apply reduceLoop_ok; [|done].
      apply Forall_reverse, Forall_forall. intros a Ha.
      apply list_elem_of_filter in Ha as [_ Ha]. rewrite Forall_forall in Hnew.
      by apply Hnew.
  - intros id config' [= <-]. cbn [cfg_accessories withAccessories].
    apply Forall_forall. intros a Ha. apply list_elem_of_filter in Ha as [_ Ha].
    rewrite Forall_forall in Hok. by apply Hok.
Qed.

Lemma add_remove_keep_railings_ok_witness :
  exists config',
    changed (addAccessory (platform [railing "railings-1" 2 13]) stairs "17")
      = Some config' /\
    Forall railingOk (cfg_accessories config').
Proof.
  eexists. split; [reflexivity|].
  refine (proj1 (add_remove_keep_railings_ok (platform [railing "railings-1" 2 13]) _)
            stairs "17"%string _ _).
  - concrete_railings_ok.
  - reflexivity.
Defined.

End MutationsMore.

(* ================================================================== *)
(** ** Further properties: the pricing engine                          *)
(* ================================================================== *)

Section PricingMore.
Import Pricing Examples.

Lemma accessoryPriceStep_shift total a :
  accessoryPriceStep total a == total + accessoryPriceStep 0 a.
Proof.
  unfold accessoryPriceStep. destruct (acc_type a).
  - lra.
  - destruct (acc_length a) as [l|]; [destruct (Qeq_dec l 0)|]; lra.
  - lra.
Qed.

Lemma fold_left_accessoryPriceStep (l : list Accessory) (acc : Q) :
  fold_left accessoryPriceStep l acc == acc + fold_left accessoryPriceStep l 0.
Proof.
  revert acc. induction l as [|a l IH]; intros acc; simpl.
  - lra.
  - rewrite (IH (accessoryPriceStep acc a)), (IH (accessoryPriceStep 0 a)).
    rewrite (accessoryPriceStep_shift acc a). lra.
Qed.

Lemma calculateAccessoriesPrice_cons a (l : list Accessory) :
  calculateAccessoriesPrice (a :: l) == accessoryPriceStep 0 a + calculateAccessoriesPrice l.
Proof.
  unfold calculateAccessoriesPrice. simpl. by rewrite fold_left_accessoryPriceStep.
Qed.

(** A railing costs 800 per meter of its consumed length, also when its
    length is missing or 0. *)
Lemma accessoryPriceStep_railing a :
  isType railings a -> accessoryPriceStep 0 a == 800 * Panel.consumedLength a.
Proof.
  unfold isType, accessoryPriceStep, Panel.consumedLength, orElse,
    RAILING_PRICE_PER_METER. intros ->.
  destruct (acc_length a) as [l|]; [destruct (Qeq_dec l 0) as [Hz|_]|]; lra.
Qed.

Lemma calculateAccessoriesPrice_split (accs : list Accessory) :
  calculateAccessoriesPrice accs ==
  calculateAccessoriesPrice (filter notRailing accs) + 800 * railingTotal accs.
Proof.
  induction accs as [|a accs IH].
  - reflexivity.
  - rewrite filter_cons, calculateAccessoriesPrice_cons. cbn [railingTotal].
    destruct (decide (notRailing a)) as [Hn|Hn],
             (decide (isType railings a)) as [Hr|Hr]; try (by destruct Hn).
    + rewrite calculateAccessoriesPrice_cons, IH. lra.
    + rewrite IH, (accessoryPriceStep_railing a Hr). lra.
Qed.

Lemma existsb_isCornerStair_notRailing (l : list Accessory) :
  existsb isCornerStair (filter notRailing l) = existsb isCornerStair l.
Proof.
  induction l as [|a l IH]; [reflexivity|].
  rewrite filter_cons. simpl. destruct (decide (notRailing a)) as [Hn|Hn]; simpl.
  - by rewrite IH.
  - rewrite IH. destruct (isCornerStair a) eqn:Hv; [|reflexivity].
    exfalso. apply Hn. unfold isCornerStair in Hv. apply andb_prop in Hv as [Ht _].
    apply bool_decide_eq_true in Ht. unfold notRailing. congruence.
Qed.

(** X11. The price of the accessories adds up over concatenated lists, and
    it is the price of the stairs and gates plus 800 per meter of the total
    railing length the panel computes (a railing whose length is missing or 0
    costs nothing). *)
Theorem calculateAccessoriesPrice_additive (l1 l2 : list Accessory) :
  calculateAccessoriesPrice (l1 ++ l2)
    == calculateAccessoriesPrice l1 + calculateAccessoriesPrice l2
  /\ calculateAccessoriesPrice l1
     == calculateAccessoriesPrice (filter notRailing l1)
        + 800 * Panel.calculateTotalRailingLength l1.
Proof.
  split.
  - unfold calculateAccessoriesPrice. rewrite fold_left_app.
    by rewrite fold_left_accessoryPriceStep.
  - rewrite calculateTotalRailingLength_total. apply calculateAccessoriesPrice_split.
Qed.

(** X12. The price breakdown adds up: the total is the base price plus the
    dimension, load and accessories prices, and whenever the floor area is
    positive the price per square meter times the area gives the total back. *)
Theorem calculatePricing_breakdown (config : MezzanineConfig) :
  totalPrice (calculatePricing config)
    == basePrice (calculatePricing config) + dimensionPrice (calculatePricing config)
       + loadPrice (calculatePricing config) + accessoriesPrice (calculatePricing config)
  /\ (0 < squareMeters (calculatePricing config) ->
      pricePerSquareMeter (calculatePricing config) * squareMeters (calculatePricing config)
      == totalPrice (calculatePricing config)).
Proof.
  split.
  - unfold calculatePricing. cbn [totalPrice basePrice dimensionPrice loadPrice
      accessoriesPrice]. ring.
  - unfold calculatePricing. cbn [totalPrice squareMeters pricePerSquareMeter].
    intros Hpos. destruct (Qlt_le_dec _ _) as [_|]; [|lra].
    field. lra.
Qed.

Lemma calculatePricing_breakdown_witness :
  pricePerSquareMeter (calculatePricing (platform [stair "stairs-1" 1 "Straight 1m"]))
  * squareMeters (calculatePricing (platform [stair "stairs-1" 1 "Straight 1m"]))
  == totalPrice (calculatePricing (platform [stair "stairs-1" 1 "Straight 1m"])).
Proof.
  apply (proj2 (calculatePricing_breakdown (platform [stair "stairs-1" 1 "Straight 1m"]))).
  vm_compute. reflexivity.
Defined.

Lemma calculateDimensionPrice_nonneg length width height :
  0 <= length * width * height -> 0 <= calculateDimensionPrice length width height.
Proof.
  intros H. unfold calculateDimensionPrice, PRICE_PER_SQUARE_METER_BASE,
    DIMENSION_MULTIPLIER.
  assert (length * width * height / 1000000000 * 2000 * 0.001 * 100
          == length * width * height * (1 # 5000000)) as -> by field.
  nra.
Qed.

(** X13. A higher load class costs more: for dimensions whose product is
    not negative, the same platform with the same accessories is strictly
    cheaper at 250 kg than at 350 kg, and at 350 kg than at 500 kg. *)
Theorem load_class_raises_price
    (length width height : Q) (accessories : list Accessory) :
  0 <= length * width * height ->
  totalPrice (calculatePricing (mkConfig length width height Load250 accessories))
    < totalPrice (calculatePricing (mkConfig length width height Load350 accessories))
  /\ totalPrice (calculatePricing (mkConfig length width height Load350 accessories))
     < totalPrice (calculatePricing (mkConfig length width height Load500 accessories)).
Proof.
  intros Hvol%calculateDimensionPrice_nonneg.
  unfold calculatePricing. cbn [totalPrice cfg_length cfg_width cfg_height
    cfg_loadCapacity cfg_accessories getLoadMultiplier].
  unfold BASE_PRICE. split; nra.
Qed.

Lemma load_class_raises_price_witness :
  totalPrice (calculatePricing (mkConfig 10000 5000 3000 Load250 []))
  < totalPrice (calculatePricing (mkConfig 10000 5000 3000 Load350 [])).
Proof.
  apply (proj1 (load_class_raises_price 10000 5000 3000 [] ltac:(vm_compute; discriminate))).
Defined.

(** Quantities and lengths that are not negative. *)
Lemma calculateAccessoriesPrice_nonneg (accs : list Accessory) :
  Forall (fun a => (0 <= acc_quantity a)%Z /\
                   forall l, acc_length a = Some l -> 0 <= l) accs ->
  0 <= calculateAccessoriesPrice accs.
Proof.
  induction 1 as [|a accs [Hq Hl] _ IH]; [vm_compute; discriminate|].
  rewrite calculateAccessoriesPrice_cons.
  assert (0 <= inject_Z (acc_quantity a)) as Hq'.
  { change 0 with (inject_Z 0). by rewrite <- Zle_Qle. }
  assert (0 <= accessoryPriceStep 0 a); [|lra].
  unfold accessoryPriceStep, CORNER_STAIRS_BASE_PRICE, STAIRS_BASE_PRICE,
    RAILING_PRICE_PER_METER, PALLET_GATE_BASE_PRICE.
  destruct (acc_type a).
  - destruct (optIncludes _ _); nra.
  - destruct (acc_length a) as [l|]; [|lra].
    destruct (Qeq_dec l 0); [lra|]. specialize (Hl l eq_refl). nra.
  - nra.
Qed.

(** X14. For dimensions whose product is not negative and accessories
    whose quantities and lengths are not negative, the total price is at least
    the base price of 50000, and the monthly amount over 5 years is positive
    and below the monthly amount over 3 years. *)
Theorem leasing_five_years_is_cheaper_per_month (config : MezzanineConfig) :
  0 <= cfg_length config * cfg_width config * cfg_height config ->
  Forall (fun a => (0 <= acc_quantity a)%Z /\
                   forall l, acc_length a = Some l -> 0 <= l)
         (cfg_accessories config) ->
  50000 <= totalPrice (calculatePricing config)
  /\ 0 < leasing5Years (calculatePricing config)
  /\ leasing5Years (calculatePricing config) < leasing3Years (calculatePricing config).
Proof.
  intros Hvol%calculateDimensionPrice_nonneg Hacc%calculateAccessoriesPrice_nonneg.
  assert (50000 <= totalPrice (calculatePricing config)) as Htot.
  { unfold calculatePricing. cbn [totalPrice]. unfold BASE_PRICE.
    destruct (cfg_loadCapacity config); cbn [getLoadMultiplier]; nra. }
  split; [exact Htot|].
  unfold calculatePricing in *. cbn [totalPrice leasing3Years leasing5Years] in *.
  unfold LEASING_3_YEARS_FACTOR, LEASING_5_YEARS_FACTOR.
  set (t := (BASE_PRICE + _) * _ + _) in *.
  assert (t * 0.035 / 60 == t * (7 # 12000)) as -> by field.
  assert (t * 0.029 / 36 == t * (29 # 36000)) as -> by field.
  split; nra.
Qed.

Lemma leasing_five_years_is_cheaper_per_month_witness :
  leasing5Years (calculatePricing (platform [railing "railings-1" 2 5]))
  < leasing3Years (calculatePricing (platform [railing "railings-1" 2 5])).
Proof.
  refine (proj2 (proj2 (leasing_five_years_is_cheaper_per_month
            (platform [railing "railings-1" 2 5]) _ _))).
  - vm_compute. discriminate.
  - repeat first [apply Forall_nil_2 | apply Forall_cons_2].
    split; [cbn; lia|]. intros l [= <-]. lra.
Defined.

(** X15. The resolver never raises the price: on unique identifiers and
    railings of quantity and length >= 1, the total price of the configuration
    carrying the resolver's output is at most the total price before, and the
    floor area is the same. *)
Theorem autoAdjust_never_raises_price (config : MezzanineConfig) :
  uniqueIds (cfg_accessories config) ->
  Forall railingOk (cfg_accessories config) ->
  totalPrice (calculatePricing
                (withAccessories config (Panel.autoAdjustRailingsForPerimeter config)))
    <= totalPrice (calculatePricing config)
  /\ squareMeters (calculatePricing
                     (withAccessories config (Panel.autoAdjustRailingsForPerimeter config)))
     = squareMeters (calculatePricing config).
Proof.
  intros Hnd Hok. rewrite (autoAdjust_autoFit config Hnd).
  pose proof (autoFit_notRailing_frame config) as Hframe.
  split.
  - unfold calculatePricing. cbn [totalPrice cfg_length cfg_width cfg_height
      cfg_loadCapacity cfg_accessories withAccessories].
    rewrite (calculateAccessoriesPrice_split (Resolver.autoFit config)),
            (calculateAccessoriesPrice_split (cfg_accessories config)), Hframe.
    pose proof (autoFit_railingTotal_le config Hok). lra.
  - unfold calculatePricing, calculateSquareMeters.
    cbn [squareMeters cfg_length cfg_width cfg_accessories withAccessories].
    assert (existsb isCornerStair (Resolver.autoFit config)
            = existsb isCornerStair (cfg_accessories config)) as ->; [|done].
    rewrite <- (existsb_isCornerStair_notRailing (Resolver.autoFit config)),
            <- (existsb_isCornerStair_notRailing (cfg_accessories config)).
    by rewrite Hframe.
Qed.

Lemma autoAdjust_never_raises_price_witness :
  totalPrice (calculatePricing
                (withAccessories
                   (platform [railing "railings-1" 2 9; railing "railings-2" 3 4])
                   (Panel.autoAdjustRailingsForPerimeter
                      (platform [railing "railings-1" 2 9; railing "railings-2" 3 4]))))
  <= totalPrice (calculatePricing
                   (platform [railing "railings-1" 2 9; railing "railings-2" 3 4])).
Proof.
  refine (proj1 (autoAdjust_never_raises_price
    (platform [railing "railings-1" 2 9; railing "railings-2" 3 4]) _ _)).
  - concrete_unique_ids.
  - concrete_railings_ok.
Defined.

End PricingMore.

(* ================================================================== *)
(** ** Further properties: occupied ranges on the front edge           *)
(* ================================================================== *)

Section RangesMore.
Import Viewer Examples.

Lemma getStairsXRanges_lookup (quantity : Z) (i : nat) (r : Q * Q) :
  getStairsXRanges quantity !! i = Some r ->
  (i < Z.to_nat quantity)%nat /\
  r.1 == 2 * inject_Z (Z.of_nat i) - (inject_Z quantity - 1) - 0.5 /\
  r.2 == 2 * inject_Z (Z.of_nat i) - (inject_Z quantity - 1) + 0.5.
Proof.
  unfold getStairsXRanges.
  change (map ?f ?l) with (f <$> l). rewrite list_lookup_fmap.
  destruct (seq 0 (Z.to_nat quantity) !! i) as [k|] eqn:Hk; [|done].
  apply lookup_seq in Hk as [-> Hlt]. simpl. intros [= <-]. simpl.
  unfold stairWidth. split; [done|]. split; field.
Qed.

(** X16. The stair gaps on the front edge: as many ranges as stair units,
    each 1 m wide, 1 m of free edge between one range and the next (2 m from
    centre to centre), and the group mirror-symmetric about the middle of the
    edge. *)
Theorem getStairsXRanges_layout (quantity : Z) :
  length (getStairsXRanges quantity) = Z.to_nat quantity
  /\ (forall i r, getStairsXRanges quantity !! i = Some r -> r.2 - r.1 == 1)
  /\ (forall i r s,
        getStairsXRanges quantity !! i = Some r ->
        getStairsXRanges quantity !! S i = Some s ->
        s.1 - r.2 == 1)
  /\ (forall i j r s,
        getStairsXRanges quantity !! i = Some r ->
        getStairsXRanges quantity !! j = Some s ->
        (Z.of_nat i + Z.of_nat j = quantity - 1)%Z ->
        r.1 == - s.2).
Proof.
  split_and!.
  - unfold getStairsXRanges. by rewrite length_map, length_seq.
  - intros i r (_ & H1 & H2)%getStairsXRanges_lookup. lra.
  - intros i r s (_ & _ & H2)%getStairsXRanges_lookup
                 (_ & H1 & _)%getStairsXRanges_lookup.
    rewrite Nat2Z.inj_succ, <- Z.add_1_r, inject_Z_plus in H1.
    change (inject_Z 1) with 1 in H1. lra.
  - intros i j r s (_ & H1 & _)%getStairsXRanges_lookup
                   (_ & _ & H2)%getStairsXRanges_lookup Hsum.
    assert (inject_Z (Z.of_nat i) + inject_Z (Z.of_nat j) == inject_Z quantity - 1) as Hq.
    { rewrite <- inject_Z_plus, Hsum. unfold Z.sub.
      rewrite inject_Z_plus, inject_Z_opp. change (inject_Z 1) with 1. lra. }
    lra.
Qed.

Lemma gateSpacing_ge_2 p w : 2 <= gateSpacing p w.
Proof. unfold gateSpacing. apply Q.le_max_r. Qed.

Lemma gatesTotalSpan_shift prev (widths : list Q) t :
  gatesTotalSpan prev widths t == t + gatesTotalSpan prev widths 0.
Proof.
  revert prev t. induction widths as [|w rest IH]; intros prev t; simpl; [lra|].
  rewrite IH. rewrite (IH _ (_ + w)). destruct prev; lra.
Qed.

Lemma length_gatesRanges prev (widths : list Q) x :
  length (gatesRanges prev widths x) = length widths.
Proof.
  revert prev x. induction widths as [|w rest IH]; intros prev x; simpl; [done|].
  by rewrite IH.
Qed.

Lemma gatesRanges_width prev (widths : list Q) x i r w :
  gatesRanges prev widths x !! i = Some r -> widths !! i = Some w -> r.2 - r.1 == w.
Proof.
  revert prev x i. induction widths as [|w0 rest IH]; intros prev x [|i]; simpl; try done.
  - intros [= <-] [= <-]. simpl. field.
  - apply IH.
Qed.

Lemma gatesRanges_head p (widths : list Q) x s :
  gatesRanges (Some p) widths x !! 0%nat = Some s -> x + 2 <= s.1.
Proof.
  destruct widths as [|w rest]; simpl; [done|]. intros [= <-]. simpl.
  pose proof (gateSpacing_ge_2 p w).
  assert (x + gateSpacing p w + w / 2 - w / 2 == x + gateSpacing p w) as -> by field.
  lra.
Qed.

Lemma gatesRanges_gap prev (widths : list Q) x i r s :
  gatesRanges prev widths x !! i = Some r ->
  gatesRanges prev widths x !! S i = Some s ->
  r.2 + 2 <= s.1.
Proof.
  revert prev x i. induction widths as [|w rest IH]; intros prev x [|i]; simpl; try done.
  - intros [= <-] Hs. simpl. by apply gatesRanges_head in Hs.
  - apply IH.
Qed.

Lemma gatesRanges_first (widths : list Q) x r :
  head (gatesRanges None widths x) = Some r -> r.1 == x.
Proof.
  destruct widths as [|w rest]; simpl; [done|]. intros [= <-]. simpl. field.
Qed.

Lemma gatesRanges_last prev (widths : list Q) x s :
  last (gatesRanges prev widths x) = Some s ->
  s.2 == x + gatesTotalSpan prev widths 0.
Proof.
  revert prev x. induction widths as [|w rest IH]; intros prev x; [done|].
  destruct rest as [|w2 rest].
  - simpl. intros [= <-]. simpl. destruct prev; field.
  - intros Hlast. change (gatesRanges prev (w :: w2 :: rest) x)
      with ((let c := (match prev with
                       | Some pw => x + gateSpacing pw w
                       | None => x
                       end) + w / 2 in (c - w / 2, c + w / 2))
            :: gatesRanges (Some w) (w2 :: rest)
                 ((match prev with
                   | Some pw => x + gateSpacing pw w
                   | None => x
                   end) + w / 2 + w / 2)) in Hlast.
    rewrite last_cons in Hlast.
    destruct (last (gatesRanges (Some w) (w2 :: rest) _)) as [s'|] eqn:Hl'.
    + injection Hlast as <-. apply IH in Hl'. rewrite Hl'.
      change (gatesTotalSpan prev (w :: w2 :: rest) 0)
        with (gatesTotalSpan (Some w) (w2 :: rest)
                ((match prev with
                  | Some pw => 0 + gateSpacing pw w
                  | None => 0
                  end) + w)).
      rewrite (gatesTotalSpan_shift (Some w) (w2 :: rest) (_ + w)).
      destruct prev; field.
    + apply last_None in Hl'. discriminate Hl'.
Qed.

(** X17. The pallet-gate gaps on the front edge: one range per gate, each
    as wide as its gate, at least 2 m of edge between one range and the next,
    and the group centred on the middle of the edge (its left end is minus
    its right end). *)
Theorem getPalletGatesXRanges_layout (widths : list Q) :
  length (getPalletGatesXRanges widths) = length widths
  /\ (forall i r w,
        getPalletGatesXRanges widths !! i = Some r -> widths !! i = Some w ->
        r.2 - r.1 == w)
  /\ (forall i r s,
        getPalletGatesXRanges widths !! i = Some r ->
        getPalletGatesXRanges widths !! S i = Some s ->
        r.2 + 2 <= s.1)
  /\ (forall r s,
        head (getPalletGatesXRanges widths) = Some r ->
        last (getPalletGatesXRanges widths) = Some s ->
        r.1 == - s.2).
Proof.
  unfold getPalletGatesXRanges. split_and!.
  - apply length_gatesRanges.
  - intros i r w. apply gatesRanges_width.
  - intros i r s. apply gatesRanges_gap.
  - intros r s Hr%gatesRanges_first Hs%gatesRanges_last.
    rewrite Hr, Hs. field.
Qed.

Lemma gatesRanges_positions prev (widths : list Q) x :
  gatesRanges prev widths x
  = (fun p : Q * Q => (p.1 - p.2 / 2, p.1 + p.2 / 2)) <$> gatesPositions prev widths x.
Proof.
  revert prev x. induction widths as [|w rest IH]; intros prev x; [reflexivity|].
  simpl. by rewrite IH.
Qed.

(** X18. The gaps the railings leave for pallet gates are where the gates
    are drawn: for the list of gate widths of a configuration, each occupied
    range runs from half a gate width left of the drawn gate's centre to half
    a gate width right of it, gate by gate. *)
Theorem railing_gaps_match_drawn_gates (config : MezzanineConfig) :
  getPalletGatesXRanges (allGateWidths config)
  = (fun p : Q * Q => (p.1 - p.2 / 2, p.1 + p.2 / 2))
      <$> palletGatePositions (allGateWidths config)
  /\ snd <$> palletGatePositions (allGateWidths config) = allGateWidths config.
Proof.
  split.
  - apply gatesRanges_positions.
  - unfold palletGatePositions. generalize (- gatesTotalSpan None (allGateWidths config) 0 / 2).
    generalize (@None Q). induction (allGateWidths config) as [|w rest IH]; intros prev x;
      [reflexivity|]. simpl. by rewrite IH.
Qed.

End RangesMore.

(* ================================================================== *)
(** ** Further properties: the perimeter walker and the columns        *)
(* ================================================================== *)

Section WalkerMore.
Import Viewer Examples.

Lemma getStairsXRanges_layout_witness :
  exists r s, getStairsXRanges 3 !! 0%nat = Some r /\
              getStairsXRanges 3 !! 1%nat = Some s /\ s.1 - r.2 == 1.
Proof.
  eexists. eexists. split; [reflexivity|]. split; [reflexivity|].
  eapply (proj1 (proj2 (proj2 (getStairsXRanges_layout 3))) 0%nat); reflexivity.
Defined.

Lemma getPalletGatesXRanges_layout_witness :
  exists r s, getPalletGatesXRanges [2; 3] !! 0%nat = Some r /\
              getPalletGatesXRanges [2; 3] !! 1%nat = Some s /\ r.2 + 2 <= s.1.
Proof.
  eexists. eexists. split; [reflexivity|]. split; [reflexivity|].
  eapply (proj1 (proj2 (proj2 (getPalletGatesXRanges_layout [2; 3]))) 0%nat); reflexivity.
Defined.

Lemma findEdge_elem (segs : list Segment) perimeter d e :
  findEdge segs perimeter d = Some e -> e ∈ segs.
Proof.
  induction segs as [|seg rest IH]; simpl; [done|].
  destruct (_ && _).
  - intros [= <-]. apply list_elem_of_here.
  - intros H. apply list_elem_of_further. by apply IH.
Qed.

(** What the loop guarantees for every piece it emits, whatever the cursor
    and the length still to place. *)
Lemma walk_safe fuel (segs : list Segment) ranges hasRepos perimeter :
  (hasRepos = false -> Forall (fun s => seg_edge s <> repos_front) segs) ->
  forall currentDistance remainingLength,
    Forall (fun p => pl_edge p <> repos_front /\ 0.05 <= pl_segmentLen p /\
                     (pl_edge p <> front -> pl_segmentLen p <= 3))
           (walk fuel segs ranges hasRepos perimeter currentDistance remainingLength)
    /\ (length (walk fuel segs ranges hasRepos perimeter currentDistance remainingLength)
        <= fuel)%nat.
Proof.
  intros Hsegs. induction fuel as [|fuel IH]; intros d rem.
  - split; [apply Forall_nil_2|simpl; lia].
  - cbn [walk].
    destruct (Qle_bool rem 0.01); cbv iota; [split; [apply Forall_nil_2|simpl; lia]|].
    destruct (findEdge segs perimeter d) as [edge|] eqn:Hfind; cbv iota;
      [|split; [apply Forall_nil_2|simpl; lia]].
    apply findEdge_elem in Hfind.
    destruct (bool_decide (seg_edge edge = repos_front) && hasRepos) eqn:Hskip; cbv iota.
    { destruct (IH (advance perimeter d (edgeLength edge - (d - edgeStartDist edge))) rem).
      split; [done|lia]. }
    assert (seg_edge edge <> repos_front) as Hedge.
    { destruct hasRepos.
      - rewrite andb_true_r in Hskip. by apply bool_decide_eq_false in Hskip.
      - specialize (Hsegs eq_refl). rewrite Forall_forall in Hsegs. by apply Hsegs. }
    destruct (if bool_decide (seg_edge edge = front) then _ else None)
      as [[minX skipToX]|]; cbv iota.
    { match goal with |- context [walk fuel segs ranges hasRepos perimeter ?d' rem] =>
        destruct (IH d' rem) end. split; [done|lia]. }
    match goal with |- context [negb (Qle_bool 0.05 ?len)] =>
      set (segmentLen := len) end.
    destruct (Qle_bool 0.05 segmentLen) eqn:Hlen; cbn [negb]; cbv iota.
    + match goal with |- context [walk fuel segs ranges hasRepos perimeter ?d' ?r'] =>
        destruct (IH d' r') as [H1 H2] end.
      split; [|cbn [length]; lia].
      apply Forall_cons_2; [|done]. cbn [pl_edge pl_segmentLen].
      split_and!; [done|by apply Qle_bool_iff|].
      intros Hnf. unfold segmentLen.
      rewrite bool_decide_eq_false_2 by done.
      eapply Qle_trans; [apply Q.le_min_r|]. apply Q.le_min_r.
    + destruct (IH (advance perimeter d 0.05) rem). split; [done|lia].
Qed.

(** X19. The perimeter walker's safety properties, for every input: it
    emits at most 1000 railing pieces (the iteration cap), never a piece on
    the Repos front edge, never a piece shorter than 0.05 m, and off the
    front edge never a piece longer than 3 m. *)
Theorem Railings_safe (length width height : Q) (quantity : Z) (segmentLength : Q)
    (stairsQuantity : Z) (palletGatesWidths : list Q) (hasRepos : bool) :
  (List.length (Railings length width height quantity segmentLength stairsQuantity
                         palletGatesWidths hasRepos) <= 1000)%nat
  /\ Forall (fun p => pl_edge p <> repos_front /\ 0.05 <= pl_segmentLen p /\
                      (pl_edge p <> front -> pl_segmentLen p <= 3))
            (Railings length width height quantity segmentLength stairsQuantity
                      palletGatesWidths hasRepos).
Proof.
  unfold Railings. destruct (Qle_bool _ 0).
  - split; [simpl; lia|apply Forall_nil_2].
  - match goal with |- context [walk maxIterations ?segs ?ranges hasRepos ?per ?d ?rem] =>
      destruct (walk_safe maxIterations segs ranges hasRepos per) with
        (currentDistance := d) (remainingLength := rem) as [H1 H2] end.
    + intros ->. unfold perimeterSegments.
      repeat first [apply Forall_nil_2 | apply Forall_cons_2]; discriminate.
    + split; [exact H2|exact H1].
Qed.

Lemma Railings_safe_witness :
  Forall (fun p => pl_edge p <> repos_front /\ 0.05 <= pl_segmentLen p /\
                   (pl_edge p <> front -> pl_segmentLen p <= 3))
         (Railings 9.4 4 3 1 10 1 [2] true).
Proof.
  exact (proj2 (Railings_safe 9.4 4 3 1 10 1 [2] true)).
Defined.

Lemma columnDivisions_pos size : 0 < size -> (1 <= columnDivisions size)%Z.
Proof.
  intros Hpos. unfold columnDivisions, maxSectionSize.
  pose proof (Qle_ceiling (size / 4.5)) as Hc.
  assert (0 < size / 4.5) as Hd by (apply Qlt_shift_div_l; lra).
  assert (0 < Qceiling (size / 4.5))%Z; [|lia].
  rewrite Zlt_Qlt. change (inject_Z 0) with 0. lra.
Qed.

Lemma columnSpacing_ok size :
  0 < size ->
  inject_Z (columnDivisions size) * columnSpacing size == size /\
  0 < columnSpacing size /\ columnSpacing size <= 4.5.
Proof.
  intros Hpos. pose proof (columnDivisions_pos size Hpos) as Hd%inject_Z_ge_1.
  unfold columnSpacing.
  assert (inject_Z (columnDivisions size) * (size / inject_Z (columnDivisions size))
          == size) as Hm by (apply Qmult_div_r; lra).
  split_and!; [done| |].
  - apply Qlt_shift_div_l; lra.
  - apply Qle_shift_div_r; [lra|].
    unfold columnDivisions, maxSectionSize in *.
    pose proof (Qle_ceiling (size / 4.5)) as Hc.
    assert (4.5 * (size / 4.5) == size) as Hs by (apply Qmult_div_r; lra).
    nra.
Qed.

Lemma length_flat_map_grid {A B C} (f : A -> B -> C) (l1 : list A) (l2 : list B) :
  List.length (flat_map (fun i => map (f i) l2) l1)
  = (List.length l1 * List.length l2)%nat.
Proof.
  induction l1 as [|i l1 IH]; [reflexivity|].
  cbn [flat_map]. rewrite length_app, IH, length_map. simpl. lia.
Qed.

(** X20. The support columns follow the 4.5 m rule: for a platform of
    positive length and width, neighbouring columns are at most 4.5 m apart
    in each direction, there are (divisions + 1) x (divisions + 1) of them
    (at least the four corners), and every column stands at half the height
    within the platform's rectangle. *)
Theorem SupportColumns_layout (length width height : Q) :
  0 < length -> 0 < width ->
  columnSpacing length <= 4.5 /\ columnSpacing width <= 4.5
  /\ List.length (SupportColumns length width height)
     = (Z.to_nat (columnDivisions length + 1) * Z.to_nat (columnDivisions width + 1))%nat
  /\ (4 <= List.length (SupportColumns length width height))%nat
  /\ Forall (fun p => - length / 2 <= pX p /\ pX p <= length / 2 /\
                      - width / 2 <= pZ p /\ pZ p <= width / 2 /\
                      pY p = height / 2)
            (SupportColumns length width height).
Proof.
  intros Hl Hw.
  destruct (columnSpacing_ok length Hl) as (Hml & Hpl & Hsl).
  destruct (columnSpacing_ok width Hw) as (Hmw & Hpw & Hsw).
  pose proof (columnDivisions_pos length Hl) as Hdl.
  pose proof (columnDivisions_pos width Hw) as Hdw.
  assert (List.length (SupportColumns length width height)
          = (Z.to_nat (columnDivisions length + 1)
             * Z.to_nat (columnDivisions width + 1))%nat) as Hlen.
  { unfold SupportColumns. by rewrite length_flat_map_grid, !length_seq. }
  split_and!; [done|done|done| |].
  - rewrite Hlen.
    assert (2 <= Z.to_nat (columnDivisions length + 1))%nat by lia.
    assert (2 <= Z.to_nat (columnDivisions width + 1))%nat by lia. nia.
  - apply Forall_forall. intros p Hp. apply list_elem_of_In in Hp.
    unfold SupportColumns in Hp. apply in_flat_map in Hp as (i & Hi & Hp).
    apply in_map_iff in Hp as (j & <- & Hj).
    apply in_seq in Hi, Hj. cbn [pX pY pZ fst snd].
    assert (0 <= inject_Z (Z.of_nat i) /\
            inject_Z (Z.of_nat i) <= inject_Z (columnDivisions length)) as [Hi0 Hi1].
    { change 0 with (inject_Z 0). rewrite <- !Zle_Qle. lia. }
    assert (0 <= inject_Z (Z.of_nat j) /\
            inject_Z (Z.of_nat j) <= inject_Z (columnDivisions width)) as [Hj0 Hj1].
    { change 0 with (inject_Z 0). rewrite <- !Zle_Qle. lia. }
    assert (0 <= inject_Z (Z.of_nat i) * columnSpacing length) as Hx0
      by (apply Qmult_le_0_compat; lra).
    assert (inject_Z (Z.of_nat i) * columnSpacing length <= length) as Hx1.
    { rewrite <- Hml at 2. apply Qmult_le_compat_r; lra. }
    assert (0 <= inject_Z (Z.of_nat j) * columnSpacing width) as Hz0
      by (apply Qmult_le_0_compat; lra).
    assert (inject_Z (Z.of_nat j) * columnSpacing width <= width) as Hz1.
    { rewrite <- Hmw at 2. apply Qmult_le_compat_r; lra. }
    assert (forall x : Q, x / 2 == x * (1 # 2)) as Hhalf by (intros; field).
    rewrite !Hhalf.
    split_and!; try done; lra.
Qed.

Lemma SupportColumns_layout_witness :
  columnSpacing 9.4 <= 4.5 /\ List.length (SupportColumns 9.4 4 3) = 8%nat.
Proof.
  destruct (SupportColumns_layout 9.4 4 3) as (H1 & _ & H3 & _).
  - vm_compute. reflexivity.
  - vm_compute. reflexivity.
  - split; [exact H1|exact H3].
Defined.

End WalkerMore.

Section WalkerFirstPiece.
Import Viewer Examples.

Lemma Qle_bool_false x y : y < x -> Qle_bool x y = false.
Proof.
  intros H. destruct (Qle_bool x y) eqn:E; [|done].
  apply Qle_bool_iff in E. lra.
Qed.

Lemma walk_stops fuel segs ranges hasRepos perimeter d rem :
  rem <= 0.01 -> walk fuel segs ranges hasRepos perimeter d rem = [].
Proof.
  intros H. destruct fuel; [reflexivity|]. cbn [walk].
  by rewrite (proj2 (Qle_bool_iff _ _) H).
Qed.

(** On a plain platform (no stairs, no gates, no Repos) a railing of total
    length [total], between 0.05 m and 3 m and no longer than the front edge,
    is placed by two turns of the loop: one piece, then the stop. *)
Lemma walk_first_piece n (length width height total : Q) :
  0.05 <= total -> total <= 3 -> total <= length -> 0 <= width ->
  exists p,
    walk (S n) (perimeterSegments length width height false) [] false
         (2 * (length + width)) 0 (Qmin total (2 * (length + width))) = [p]
    /\ pl_edge p = front /\ pl_segmentLen p == total
    /\ pX (pl_position p) == - length / 2 + total / 2
    /\ pZ (pl_position p) == - width / 2.
Proof.
  intros Hmin Hmax Hlen Hw.
  assert (Qmin total (2 * (length + width)) == total) as Hrem
    by (apply Q.min_l; lra).
  set (rem := Qmin total (2 * (length + width))) in *.
  assert (Qmin rem (Qmin (length - (0 - 0)) 3) == total) as Hseg.
  { rewrite Q.min_l; [done|]. apply Q.min_glb; lra. }
  cbn [walk perimeterSegments app findEdge edgeStartDist seg_edge].
  rewrite (Qle_bool_false rem 0.01) by lra.
  rewrite (proj2 (Qle_bool_iff 0 0)) by lra.
  rewrite (Qle_bool_false (0 + length) 0) by lra.
  cbn [andb negb]. cbv iota. cbn [seg_edge edgeStartDist edgeLength].
  rewrite (bool_decide_eq_false_2 (front = repos_front)) by done.
  rewrite (bool_decide_eq_true_2 (front = front)) by done.
  cbn [andb gapAt crossedRange find]. cbv iota.
  set (segmentLen := Qmin rem (Qmin (length - (0 - 0)) 3)) in *.
  rewrite (proj2 (Qle_bool_iff 0.05 segmentLen)) by lra.
  cbn [negb]. cbv iota.
  rewrite walk_stops by lra.
  eexists. split; [reflexivity|].
  cbn [pl_edge pl_segmentLen pl_position pX pZ seg_start seg_end edgeLength fst snd].
  split_and!; [done|done| |].
  - rewrite Hseg. field. lra.
  - field. lra.
Qed.

(** X21. A short railing on a plain platform: with no stairs, no pallet
    gates and no Repos, a railing whose total length is between 0.05 m and
    3 m and not longer than the front edge is drawn as exactly one piece, on
    the front edge, of that length, starting at the front-left corner. *)
Theorem Railings_short_railing_is_one_piece
    (length width height : Q) (quantity : Z) (segmentLength : Q) :
  0.05 <= inject_Z quantity * segmentLength ->
  inject_Z quantity * segmentLength <= 3 ->
  inject_Z quantity * segmentLength <= length ->
  0 <= width ->
  exists p,
    Railings length width height quantity segmentLength 0 [] false = [p]
    /\ pl_edge p = front
    /\ pl_segmentLen p == inject_Z quantity * segmentLength
    /\ pX (pl_position p) - pl_segmentLen p / 2 == - length / 2
    /\ pZ (pl_position p) == - width / 2.
Proof.
  intros Hmin Hmax Hlen Hw. unfold Railings.
  rewrite (Qle_bool_false _ 0) by lra.
  change maxIterations with (S 999).
  change (getStairsXRanges 0 ++ getPalletGatesXRanges []) with (@nil (Q * Q)).
  destruct (walk_first_piece 999%nat length width height
              (inject_Z quantity * segmentLength) Hmin Hmax Hlen Hw)
    as (p & Hp & He & Hs & Hx & Hz).
  exists p. split_and!; try done.
  rewrite Hx, Hs. field.
Qed.

Lemma Railings_short_railing_is_one_piece_witness :
  exists p,
    Railings 9.4 4 3 1 2.5 0 [] false = [p]
    /\ pl_edge p = front
    /\ pl_segmentLen p == inject_Z 1 * 2.5
    /\ pX (pl_position p) - pl_segmentLen p / 2 == - 9.4 / 2
    /\ pZ (pl_position p) == - 4 / 2.
Proof.
  apply (Railings_short_railing_is_one_piece 9.4 4 3 1 2.5);
    vm_compute; discriminate.
Defined.

End WalkerFirstPiece.


(* ================================================================== *)
(** ** Lemmas: the panel over doubles                                  *)
(* ================================================================== *)

Section Doubles.
Import JS Panel64 Resolver64.
#[local] Open Scope float_scope.



Lemma Prim2SF_nan_inv (q : float) : Prim2SF q = S754_nan -> q = nan.
Proof. intros H. apply Prim2SF_inj. by rewrite H. Qed.

(** A number times 0 is a zero or [NaN]. *)
Lemma mul_zero_class (q : float) :
  (exists s, Prim2SF (q * 0) = S754_zero s) \/ q * 0 = nan.
Proof.
  pose proof (mul_spec q 0) as H. change (Prim2SF 0) with (S754_zero false) in H.
  destruct (Prim2SF q) as [s|s| |s m e]; cbn in H;
    first [left; eexists; exact H | right; by apply Prim2SF_nan_inv].
Qed.

Lemma nan_sub (r : float) : nan - r = nan.
Proof. apply Prim2SF_inj. by rewrite sub_spec. Qed.

Lemma nan_div (r : float) : nan / r = nan.
Proof. apply Prim2SF_inj. by rewrite div_spec. Qed.

(** A zero of either sign is at most every positive number. *)
Lemma zero_leb s (c r : float) :
  Prim2SF c = S754_zero s -> (0 <? r) = true -> (c <=? r) = true.
Proof.
  rewrite ltb_spec, leb_spec. intros ->. unfold SFltb, SFleb.
  change (Prim2SF 0) with (S754_zero false).
  destruct (Prim2SF r) as [sr|sr| |sr mr er]; cbn; try destruct sr; congruence.
Qed.

Lemma withAccessories_same64 config : withAccessories config (cfg_accessories config) = config.
Proof. by destruct config. Qed.

(** *** Sums *)


(** The specification's consumed length and requested total are the
    panel's. *)
Lemma consumed_consumedLength64 a : consumed a = consumedLength a.
Proof. reflexivity. Qed.

Lemma requestedFrom_fold64 (accs : list Accessory) : forall sum,
  requestedFrom sum accs
  = fold_left (fun sum railing => sum + consumedLength railing)
              (filter (isType railings) accs) sum.
Proof.
  induction accs as [|a accs IH]; intros sum; [reflexivity|].
  cbn [requestedFrom]. rewrite filter_cons.
  destruct (decide (isType railings a)) as [Hr|Hr]; by rewrite IH.
Qed.

Lemma requested_total64 (accs : list Accessory) :
  requested accs = calculateTotalRailingLength accs.
Proof. apply requestedFrom_fold64. Qed.

(** *** The available perimeter looks at stairs and gates only *)

Lemma filter_type_notRailing64 t (l : list Accessory) :
  t <> railings ->
  filter (isType t) (filter notRailing l) = filter (isType t) l.
Proof.
  intros Ht. induction l as [|a l IH]; [reflexivity|].
  rewrite (filter_cons notRailing), (filter_cons (isType t)).
  destruct (decide (notRailing a)) as [Hn|Hn].
  - rewrite filter_cons, IH. reflexivity.
  - rewrite IH. destruct (decide (isType t a)) as [Hta|]; [|reflexivity].
    exfalso. apply Hn. unfold notRailing, isType in *. congruence.
Qed.

Lemma existsb_isVinkelStair_notRailing64 (l : list Accessory) :
  existsb isVinkelStair (filter notRailing l) = existsb isVinkelStair l.
Proof.
  induction l as [|a l IH]; [reflexivity|].
  rewrite filter_cons. cbn [existsb].
  destruct (decide (notRailing a)) as [Hn|Hn]; cbn [existsb].
  - by rewrite IH.
  - rewrite IH. destruct (isVinkelStair a) eqn:Hv; [|reflexivity].
    exfalso. apply Hn. unfold isVinkelStair in Hv.
    apply andb_prop in Hv as [Hv _]. apply bool_decide_eq_true in Hv.
    unfold notRailing. congruence.
Qed.

Lemma calculateAvailablePerimeter_frame64 config (l1 l2 : list Accessory) :
  filter notRailing l1 = filter notRailing l2 ->
  calculateAvailablePerimeter (withAccessories config l1) =
  calculateAvailablePerimeter (withAccessories config l2).
Proof.
  intros Heq. unfold calculateAvailablePerimeter, calculatePerimeter,
    calculateStairsSpace, calculatePalletGatesSpace.
  cbn [cfg_length cfg_width cfg_accessories withAccessories].
  rewrite <- (existsb_isVinkelStair_notRailing64 l1),
          <- (existsb_isVinkelStair_notRailing64 l2),
          <- (filter_type_notRailing64 stairs l1), <- (filter_type_notRailing64 stairs l2),
          <- (filter_type_notRailing64 palletGate l1),
          <- (filter_type_notRailing64 palletGate l2), Heq by done.
  reflexivity.
Qed.

(** *** The loop *)

Lemma reduceLoop_stop64 pending adjusted r :
  (0 <? r) = false -> reduceLoop pending adjusted r = adjusted.
Proof.
  intros Hr. destruct pending as [|railing pending]; cbn [reduceLoop]; [reflexivity|].
  by rewrite Hr.
Qed.

Lemma reducedRailing_type64 railing r : acc_type (reducedRailing railing r) = acc_type railing.
Proof. unfold reducedRailing. by destruct (1 <=? _). Qed.

Lemma list_find_unique_id64 (pre suf : list Accessory) a :
  NoDup (acc_id <$> (pre ++ a :: suf)) ->
  list_find (fun x => acc_id x = acc_id a) (pre ++ a :: suf) = Some (length pre, a).
Proof.
  intros Hnd. apply list_find_Some. split_and!.
  - by apply list_lookup_middle.
  - reflexivity.
  - intros j y Hj Hlt Hid.
    rewrite lookup_app_l in Hj by done.
    rewrite fmap_app, fmap_cons in Hnd.
    apply NoDup_app in Hnd as (_ & Hdisj & _).
    apply (Hdisj (acc_id y)).
    + apply list_elem_of_fmap. exists y. split; [done|]. by eapply list_elem_of_lookup_2.
    + rewrite Hid. apply list_elem_of_here.
Qed.

Lemma uniqueIds_delete_middle64 (pre suf : list Accessory) a :
  NoDup (acc_id <$> (pre ++ a :: suf)) -> NoDup (acc_id <$> (pre ++ suf)).
Proof.
  rewrite !fmap_app, fmap_cons. intros Hnd.
  eapply sublist_NoDup; [exact Hnd|].
  apply sublist_app; [reflexivity|]. by apply sublist_cons.
Qed.

Lemma filter_notRailing_middle64 (pre suf : list Accessory) a :
  isType railings a -> filter notRailing (pre ++ a :: suf) = filter notRailing (pre ++ suf).
Proof.
  intros Ha. rewrite !filter_app, filter_cons.
  destruct (decide (notRailing a)) as [Hn|_]; [by destruct Hn|reflexivity].
Qed.

(** With the railings of [pre] still to visit and [pre ++ suf] the array
    built so far, the loop leaves the stairs and gates where they are. *)
Lemma reduceLoop_frame64 (pre : list Accessory) : forall suf r,
  NoDup (acc_id <$> (pre ++ suf)) ->
  filter notRailing (reduceLoop (reverse (filter (isType railings) pre)) (pre ++ suf) r)
  = filter notRailing (pre ++ suf).
Proof.
  induction pre as [|a pre IH] using rev_ind; intros suf r Hnd.
  - reflexivity.
  - rewrite filter_app, filter_cons, filter_nil.
    rewrite <- app_assoc in Hnd |- *. cbn [app] in Hnd |- *.
    destruct (decide (isType railings a)) as [Ha|Ha].
    + rewrite reverse_snoc. cbn [reduceLoop].
      destruct (0 <? r); [|reflexivity].
      rewrite (list_find_unique_id64 pre suf a Hnd).
      destruct (consumedLength a <=? r).
      * rewrite delete_middle.
        rewrite (IH suf) by by eapply uniqueIds_delete_middle64.
        by rewrite filter_notRailing_middle64.
      * rewrite reduceLoop_stop64 by reflexivity.
        replace (length pre) with (length pre + 0)%nat by lia.
        rewrite insert_app_r. cbn.
        rewrite !filter_notRailing_middle64; [done|done|].
        unfold isType. by rewrite reducedRailing_type64.
    + rewrite app_nil_r. by apply IH.
Qed.

(** On unique identifiers the resolver leaves the stairs and gates where
    they are, so the second run sees the same available perimeter. *)
Lemma autoAdjust_notRailing_frame64 config :
  uniqueIds (cfg_accessories config) ->
  filter notRailing (autoAdjustRailingsForPerimeter config)
  = filter notRailing (cfg_accessories config).
Proof.
  intros Hnd. unfold autoAdjustRailingsForPerimeter.
  destruct (_ <=? _); [reflexivity|].
  pose proof (reduceLoop_frame64 (cfg_accessories config) []
    (calculateTotalRailingLength (cfg_accessories config)
     - calculateAvailablePerimeter config)) as H.
  rewrite !app_nil_r in H. by apply H.
Qed.

Lemma autoAdjust_available64 config :
  uniqueIds (cfg_accessories config) ->
  calculateAvailablePerimeter
    (withAccessories config (autoAdjustRailingsForPerimeter config))
  = calculateAvailablePerimeter config.
Proof.
  intros Hnd.
  rewrite (calculateAvailablePerimeter_frame64 config _ (cfg_accessories config))
    by by apply autoAdjust_notRailing_frame64.
  by rewrite withAccessories_same64.
Qed.

(** *** The loop against the specification's backward walk *)

Lemma absorbExcess_stop64 (accs : list Accessory) excess :
  (0 <? excess) = false -> absorbExcess accs excess = (accs, excess).
Proof.
  intros He. induction accs as [|a accs IH]; cbn [absorbExcess]; [reflexivity|].
  rewrite IH. destruct (decide (isType railings a)); [|reflexivity].
  by rewrite He.
Qed.

Lemma absorbExcess_app64 (l1 l2 : list Accessory) excess :
  absorbExcess (l1 ++ l2) excess =
  let '(l2', r2) := absorbExcess l2 excess in
  let '(l1', r1) := absorbExcess l1 r2 in
  (l1' ++ l2', r1).
Proof.
  induction l1 as [|a l1 IH]; cbn [app absorbExcess].
  - by destruct (absorbExcess l2 excess).
  - rewrite IH. destruct (absorbExcess l2 excess) as [l2' r2].
    destruct (absorbExcess l1 r2) as [l1' r1].
    destruct (decide (isType railings a)); [|reflexivity].
    destruct (0 <? r1); [|reflexivity].
    destruct (consumed a <=? r1); reflexivity.
Qed.

(** Where the loop shrinks a railing, the default of
    [railing.length || 10] does not show: without a length the consumed
    length is a zero, which the loop removes, or [NaN], which makes every
    number of the replacement [NaN] whatever the divisor. *)
Lemma reducedRailing_shrinkRailing64 railing r :
  (0 <? r) = true -> (consumedLength railing <=? r) = false ->
  reducedRailing railing r = shrinkRailing railing r.
Proof.
  intros Hr Hc. unfold reducedRailing, shrinkRailing, perUnitLength.
  change (consumed railing) with (consumedLength railing).
  assert (orElse (acc_length railing) 10 = orElse (acc_length railing) 0
          \/ consumedLength railing = nan) as [->|Hnan]; [|reflexivity|].
  - unfold consumedLength, orElse in *.
    destruct (acc_length railing) as [l|]; [destruct (falsy l); [|by left]|].
    all: destruct (mul_zero_class (acc_quantity railing)) as [[s Hz]|Hn];
      [|by right].
    all: by rewrite (zero_leb s _ r Hz Hr) in Hc.
  - rewrite Hnan, nan_sub, !nan_div. reflexivity.
Qed.

Lemma reduceLoop_absorbExcess64 (pre : list Accessory) : forall suf r,
  NoDup (acc_id <$> (pre ++ suf)) ->
  reduceLoop (reverse (filter (isType railings) pre)) (pre ++ suf) r =
  (absorbExcess pre r).1 ++ suf.
Proof.
  induction pre as [|a pre IH] using rev_ind; intros suf r Hnd.
  - reflexivity.
  - rewrite absorbExcess_app64, filter_app, filter_cons, filter_nil.
    cbn [absorbExcess].
    rewrite <- app_assoc in Hnd |- *. cbn [app] in Hnd |- *.
    destruct (decide (isType railings a)) as [Ha|Ha].
    + rewrite reverse_snoc. cbn [reduceLoop].
      destruct (0 <? r) eqn:Hr.
      * rewrite (list_find_unique_id64 pre suf a Hnd).
        rewrite (consumed_consumedLength64 a).
        destruct (consumedLength a <=? r) eqn:Hc.
        -- rewrite delete_middle.
           rewrite (IH suf (r - consumedLength a))
             by by eapply uniqueIds_delete_middle64.
           destruct (absorbExcess pre (r - consumedLength a)) as [pre' r'].
           cbn. by rewrite app_nil_r.
        -- rewrite reduceLoop_stop64 by reflexivity.
           rewrite absorbExcess_stop64 by reflexivity. cbn.
           rewrite <- app_assoc. cbn.
           rewrite reducedRailing_shrinkRailing64 by done.
           replace (length pre) with (length pre + 0)%nat by lia.
           by rewrite insert_app_r.
      * rewrite absorbExcess_stop64 by done. cbn. by rewrite <- app_assoc.
    + rewrite app_nil_r. rewrite (IH (a :: suf) r) by done.
      destruct (absorbExcess pre r) as [pre' r']. cbn.
      by rewrite <- app_assoc.
Qed.

(** The source's resolver is the specification's, on unique identifiers. *)
Lemma autoAdjust_autoFit64 config :
  uniqueIds (cfg_accessories config) ->
  autoAdjustRailingsForPerimeter config
  = autoFit (calculateAvailablePerimeter config) (cfg_accessories config).
Proof.
  intros Hnd. unfold autoAdjustRailingsForPerimeter, autoFit.
  rewrite requested_total64.
  destruct (_ <=? _); [reflexivity|].
  pose proof (reduceLoop_absorbExcess64 (cfg_accessories config) []
    (calculateTotalRailingLength (cfg_accessories config)
     - calculateAvailablePerimeter config)) as H.
  rewrite !app_nil_r in H. by apply H.
Qed.

End Doubles.

(* ================================================================== *)
(** ** Theorems: the resolver over doubles                             *)
(* ================================================================== *)

Section ResolverOnDoubles.
Import JS Panel64 Resolver64 Examples64.
#[local] Open Scope float_scope.

(** C4. On unique identifiers
    [autoAdjustRailingsForPerimeter] is the backward walk of the
    specification ([autoFit], which has its own consumed length and requested
    total): nothing changes while the requested railing length fits;
    otherwise the excess is absorbed from the most recently added railing
    backward, a railing whose full consumed length (quantity x per-unit
    length) is at most the remaining excess being removed whole and the next
    one being shrunk (per-unit length rounded down to whole meters while at
    least 1 m is left per unit, else quantity
    [max(1, floor(newTotal / length))] and length
    [max(1, floor(newTotal / newQuantity))]).  One 40 m railing on the
    9400 x 4000 platform, whose available perimeter is 26.8 m, comes out as
    one 26 m railing; with 26.8 m available, 2 x 9 m and 3 x 4 m come out as
    2 x 9 m and 3 x 2 m; with 18 m available, 1 x 20 m and 5 x 1 m come out as
    1 x 18 m; with 2.5 m available, 3 x 2 m comes out as 1 x 2 m. *)
Theorem autoAdjust_walks_backward :
  (forall config : MezzanineConfig,
      uniqueIds (cfg_accessories config) ->
      autoAdjustRailingsForPerimeter config
      = autoFit (calculateAvailablePerimeter config) (cfg_accessories config))
  /\ calculateAvailablePerimeter (platform [railing "railings-1" 1 40]) = 26.8
  /\ autoAdjustRailingsForPerimeter (platform [railing "railings-1" 1 40])
     = [railing "railings-1" 1 26]
  /\ autoFit 26.8 [railing "railings-1" 1 40] = [railing "railings-1" 1 26]
  /\ autoAdjustRailingsForPerimeter
       (platform [railing "railings-1" 2 9; railing "railings-2" 3 4])
     = [railing "railings-1" 2 9; railing "railings-2" 3 2]
  /\ autoFit 26.8 [railing "railings-1" 2 9; railing "railings-2" 3 4]
     = [railing "railings-1" 2 9; railing "railings-2" 3 2]
  /\ autoFit 18 [railing "railings-1" 1 20; railing "railings-2" 5 1]
     = [railing "railings-1" 1 18]
  /\ autoFit 2.5 [railing "railings-1" 3 2] = [railing "railings-1" 1 2].
Proof.
  split_and!; [exact autoAdjust_autoFit64|..]; vm_compute; reflexivity.
Qed.

Lemma autoAdjust_walks_backward_witness :
  uniqueIds (cfg_accessories
    (platform [railing "railings-1" 1 20; railing "railings-2" 5 1;
               gate "palletGate-3" 2 W3000mm])) /\
  autoAdjustRailingsForPerimeter
    (platform [railing "railings-1" 1 20; railing "railings-2" 5 1;
               gate "palletGate-3" 2 W3000mm])
  = autoFit 20.8 [railing "railings-1" 1 20; railing "railings-2" 5 1;
                  gate "palletGate-3" 2 W3000mm].
Proof.
  assert (uniqueIds (cfg_accessories
    (platform [railing "railings-1" 1 20; railing "railings-2" 5 1;
               gate "palletGate-3" 2 W3000mm]))) as Hnd.
  { concrete_unique_ids64. }
  split; [exact Hnd|].
  exact (proj1 autoAdjust_walks_backward
           (platform [railing "railings-1" 1 20; railing "railings-2" 5 1;
                      gate "palletGate-3" 2 W3000mm]) Hnd).
Defined.

(** The resolver rounds as the panel does: on the 2000 x 3800 platform with
    a Vinkel stair and a 3000 mm gate the available perimeter is
    11.999999999999998 m, and a 20 m railing comes out at 11 m. *)
Lemma autoAdjust_rounds_as_doubles :
  calculateAvailablePerimeter
    (mkConfig 2000 3800 3000 Load250
       [stair "stairs-1" 1 "Vinkel 1m"; gate "palletGate-2" 1 W3000mm;
        railing "railings-3" 1 20])
  = 11.999999999999998
  /\ autoAdjustRailingsForPerimeter
       (mkConfig 2000 3800 3000 Load250
          [stair "stairs-1" 1 "Vinkel 1m"; gate "palletGate-2" 1 W3000mm;
           railing "railings-3" 1 20])
     = [stair "stairs-1" 1 "Vinkel 1m"; gate "palletGate-2" 1 W3000mm;
        railing "railings-3" 1 11].
Proof. split; vm_compute; reflexivity. Qed.

(** C8 (as the code has it). On unique identifiers, when the list the
    resolver returns fits the available perimeter (its own test
    [currentRailingLength <= availablePerimeter]), running the resolver on
    the configuration that carries that list returns it again. *)
Theorem autoAdjust_idempotent (config : MezzanineConfig) :
  uniqueIds (cfg_accessories config) ->
  (calculateTotalRailingLength (autoAdjustRailingsForPerimeter config)
     <=? calculateAvailablePerimeter config) = true ->
  autoAdjustRailingsForPerimeter
    (withAccessories config (autoAdjustRailingsForPerimeter config))
  = autoAdjustRailingsForPerimeter config.
Proof.
  intros Hnd Hfit. unfold autoAdjustRailingsForPerimeter at 1.
  cbn [cfg_accessories withAccessories].
  rewrite autoAdjust_available64 by done. by rewrite Hfit.
Qed.

Lemma autoAdjust_idempotent_witness :
  autoAdjustRailingsForPerimeter
    (platform [railing "railings-1" 1 20; railing "railings-2" 1 10;
               stair "stairs-3" 1 "Straight 1m"])
  = [railing "railings-1" 1 20; railing "railings-2" 1 5;
     stair "stairs-3" 1 "Straight 1m"]
  /\ autoAdjustRailingsForPerimeter
       (withAccessories
          (platform [railing "railings-1" 1 20; railing "railings-2" 1 10;
                     stair "stairs-3" 1 "Straight 1m"])
          (autoAdjustRailingsForPerimeter
             (platform [railing "railings-1" 1 20; railing "railings-2" 1 10;
                        stair "stairs-3" 1 "Straight 1m"])))
     = autoAdjustRailingsForPerimeter
         (platform [railing "railings-1" 1 20; railing "railings-2" 1 10;
                    stair "stairs-3" 1 "Straight 1m"]).
Proof.
  split; [vm_compute; reflexivity|].
  apply (autoAdjust_idempotent
    (platform [railing "railings-1" 1 20; railing "railings-2" 1 10;
               stair "stairs-3" 1 "Straight 1m"])).
  - concrete_unique_ids64.
  - vm_compute. reflexivity.
Defined.

(** C8 as stated fails on a well-formed configuration: on the 2300 x 4000
    platform with a Vinkel stair the available perimeter comes out as
    15.999999999999998 m; the resolver cuts a 40 m railing to 16 m, and run
    again on that list it cuts the railing to 15 m. *)
Lemma autoAdjust_not_idempotent :
  uniqueIds [stair "stairs-1" 1 "Vinkel 1m"; railing "railings-2" 1 40]
  /\ calculateAvailablePerimeter
       (narrow [stair "stairs-1" 1 "Vinkel 1m"; railing "railings-2" 1 40])
     = 15.999999999999998
  /\ autoAdjustRailingsForPerimeter
       (narrow [stair "stairs-1" 1 "Vinkel 1m"; railing "railings-2" 1 40])
     = [stair "stairs-1" 1 "Vinkel 1m"; railing "railings-2" 1 16]
  /\ autoAdjustRailingsForPerimeter
       (withAccessories
          (narrow [stair "stairs-1" 1 "Vinkel 1m"; railing "railings-2" 1 40])
          (autoAdjustRailingsForPerimeter
             (narrow [stair "stairs-1" 1 "Vinkel 1m"; railing "railings-2" 1 40])))
     = [stair "stairs-1" 1 "Vinkel 1m"; railing "railings-2" 1 15]
  /\ autoAdjustRailingsForPerimeter
       (withAccessories
          (narrow [stair "stairs-1" 1 "Vinkel 1m"; railing "railings-2" 1 40])
          (autoAdjustRailingsForPerimeter
             (narrow [stair "stairs-1" 1 "Vinkel 1m"; railing "railings-2" 1 40])))
     <> autoAdjustRailingsForPerimeter
          (narrow [stair "stairs-1" 1 "Vinkel 1m"; railing "railings-2" 1 40]).
Proof.
  split_and!.
  - concrete_unique_ids64.
  - vm_compute. reflexivity.
  - vm_compute. reflexivity.
  - vm_compute. reflexivity.
  - vm_compute. intros H.
    apply (f_equal (fun l => match l !! 1%nat with
                             | Some r => (default 0 (acc_length r) =? 16)
                             | None => false
                             end)) in H.
    vm_compute in H. discriminate H.
Qed.

(** The 1 m floor breaks idempotence too, when a railing is shorter than
    1 m per unit: after a stair is added to the 9400 x 4000 platform holding
    a 21 m railing and ten units of 0.5 m, the first run turns the second
    railing into 9 units of 1 m and a second run turns it into 4 units of
    1 m. *)
Lemma autoAdjust_not_idempotent_below_one_meter :
  autoAdjustRailingsForPerimeter
    (platform [railing "railings-1" 1 21; railing "railings-2" 10 0.5;
               stair "stairs-3" 1 "Straight 1m"])
  = [railing "railings-1" 1 21; railing "railings-2" 9 1;
     stair "stairs-3" 1 "Straight 1m"] /\
  autoAdjustRailingsForPerimeter
    (withAccessories
       (platform [railing "railings-1" 1 21; railing "railings-2" 10 0.5;
                  stair "stairs-3" 1 "Straight 1m"])
       (autoAdjustRailingsForPerimeter
          (platform [railing "railings-1" 1 21; railing "railings-2" 10 0.5;
                     stair "stairs-3" 1 "Straight 1m"])))
  = [railing "railings-1" 1 21; railing "railings-2" 4 1;
     stair "stairs-3" 1 "Straight 1m"].
Proof. split; vm_compute; reflexivity. Qed.

End ResolverOnDoubles.

(* ================================================================== *)
(** ** Theorems: the mutations over doubles                            *)
(* ================================================================== *)

Section MutationsOnDoubles.
Import JS Panel64 Examples64.
#[local] Open Scope float_scope.








(** Mutations that do not run the resolver: removing the corner stair takes
    away its 3.4 m net gain and leaves the railings as they are. *)
Lemma removeAccessory_corner_stair_not_refitted :
  fits (platform [stair "stairs-1" 1 "Vinkel 1m"; railing "railings-2" 3 10]) = true /\
  exists config',
    changed (removeAccessory
               (platform [stair "stairs-1" 1 "Vinkel 1m"; railing "railings-2" 3 10])
               "stairs-1") = Some config' /\
    cfg_accessories config' = [railing "railings-2" 3 10] /\
    fits config' = false.
Proof.
  split; [vm_compute; reflexivity|].
  eexists. split_and!; [reflexivity|reflexivity|vm_compute; reflexivity].
Qed.

(** Rounding alone can leave the railings over the perimeter after the
    resolver has run: adding a stair to the 2300 x 4000 platform with a Vinkel
    stair and a 40 m railing stores a 15 m railing on
    14.999999999999998 m. *)
Lemma add_stairs_rounding_leaves_railings_over_perimeter :
  exists config',
    changed (addAccessory
               (narrow [stair "stairs-1" 1 "Vinkel 1m"; railing "railings-2" 1 40])
               stairs "1700000000000") = Some config' /\
    cfg_accessories config'
      = [stair "stairs-1" 1 "Vinkel 1m"; railing "railings-2" 1 15;
         stair "stairs-1700000000000" 1 "Straight 1m"] /\
    calculateAvailablePerimeter config' = 14.999999999999998 /\
    fits config' = false.
Proof. eexists. split_and!; [reflexivity|..]; vm_compute; reflexivity. Qed.

(** The handler of a railing edit adds the other railings first and the
    edited one last; the stored list is added up in list order.  With railings
    of 12.4 m and 4.1 m in place, setting the first railing to 10.3 m passes
    the check at 26.8 m and stores a list whose total is
    26.800000000000004 m, above the 26.8 m available. *)
Lemma accepted_railing_edit_stored_over_perimeter :
  requestedRailingTotal
    (platform [railing "railings-1" 1 5; railing "railings-2" 1 12.4;
               railing "railings-3" 1 4.1])
    (railing "railings-1" 1 5) "railings-1"
    (mkUpdates None None None None (Some 10.3) None) = 26.8 /\
  exists config',
    changed (updateAccessory
               (platform [railing "railings-1" 1 5; railing "railings-2" 1 12.4;
                          railing "railings-3" 1 4.1])
               "railings-1" (mkUpdates None None None None (Some 10.3) None))
      = Some config' /\
    cfg_accessories config'
      = [railing "railings-1" 1 10.3; railing "railings-2" 1 12.4;
         railing "railings-3" 1 4.1] /\
    calculateAvailablePerimeter config' = 26.8 /\
    calculateTotalRailingLength (cfg_accessories config') = 26.800000000000004 /\
    exceeds config' = true.
Proof.
  split; [vm_compute; reflexivity|].
  eexists. split_and!; [reflexivity|..]; vm_compute; reflexivity.
Qed.

End MutationsOnDoubles.
